(** * Coin Exchange front-end: the calculator component and its result view

    A shallow embedding of [CoinChangeCalculator] (state hooks, the health
    probe, local validation, the calculate exchange, the denomination
    selector handlers) and of [ResultDisplay], with the properties of the
    specification proved over it.

    JavaScript numbers are IEEE 754 binary64 values; they are modelled with
    the Standard Library's [spec_float] at precision 53 and [emax] 1024, so
    [0.01], [a - b] and [amountNum > 10000] mean here what they mean in the
    browser, rounding included. *)

From Stdlib Require Import ZArith List Bool Ascii String Lia.
From Stdlib Require Import Sorted Permutation.
From Stdlib Require Import SpecFloat PrimFloat FloatOps.
Import ListNotations.

Local Open Scope string_scope.
Local Open Scope Z_scope.

(** ** The JavaScript built-ins the component calls *)

Module JS.

(** [number]: a binary64 float. *)
Definition number : Type := spec_float.

Definition prec : Z := 53.
Definition emax : Z := 1024.

Definition NaN : number := S754_nan.
Definition Infinity : number := S754_infinity false.

(** [a - b], [a < b], [a > b], [a <= b], [a === b], [isNaN(a)]. *)
Definition sub (a b : number) : number := SFsub prec emax a b.
Definition lt (a b : number) : bool := SFltb a b.
Definition gt (a b : number) : bool := SFltb b a.
Definition le (a b : number) : bool := SFleb a b.
Definition ge (a b : number) : bool := SFleb b a.
Definition strict_eq (a b : number) : bool := SFeqb a b.
Definition isNaN (a : number) : bool :=
  match a with S754_nan => true | _ => false end.

(** The value of the decimal literal [m * 10^e10] (with [0 <= m]) carrying
    the sign [neg], rounded to the nearest binary64, ties to even: what a
    numeric literal of the source and what [parseFloat] evaluate to. *)
Definition of_decimal (neg : bool) (m e10 : Z) : number :=
  match m with
  | Z0 => S754_zero neg
  | Zneg _ => NaN
  | Zpos p =>
      match e10 with
      | Zneg k =>
          let '(q, e2, l) :=
            SFdiv_core_binary prec emax (Zpos p) 0 (Z.pow_pos 10 k) 0 in
          binary_round_aux prec emax neg q e2 l
      | _ => binary_round prec emax neg (Pos.mul p (Z.to_pos (10 ^ e10))) 0
      end
  end.

(** An integer literal such as [0], [5] or [10000]. *)
Definition of_Z (z : Z) : number := of_decimal (z <? 0) (Z.abs z) 0.

(** *** [parseFloat] *)

(** Strings are sequences of code units below 256. *)
Definition is_white_space (c : ascii) : bool :=
  let n := nat_of_ascii c in
  ((9 <=? n) && (n <=? 13) || (n =? 32) || (n =? 160))%nat.

Definition is_digit (c : ascii) : bool :=
  let n := nat_of_ascii c in ((48 <=? n) && (n <=? 57))%nat.

Definition digit_value (c : ascii) : Z := Z.of_nat (nat_of_ascii c) - 48.

Fixpoint trim_start (s : string) : string :=
  match s with
  | String c s' => if is_white_space c then trim_start s' else s
  | EmptyString => s
  end.

(** The longest run of decimal digits at the head of [s], folded into
    [acc]: the new accumulator, how many digits were read, and the
    remaining text. *)
Fixpoint scan_digits (s : string) (acc count : Z) : Z * Z * string :=
  match s with
  | String c s' =>
      if is_digit c then scan_digits s' (10 * acc + digit_value c) (count + 1)
      else (acc, count, s)
  | EmptyString => (acc, count, s)
  end.

(** [ExponentPart]: [e] or [E], an optional sign, at least one digit.
    When the text after the mantissa is not a complete exponent part it is
    not part of the literal and the exponent is 0. *)
Definition scan_exponent (s : string) : Z :=
  match s with
  | String c s1 =>
      if (Ascii.eqb c "e" || Ascii.eqb c "E")%bool then
        let '(neg, s2) :=
          match s1 with
          | String "-" t => (true, t)
          | String "+" t => (false, t)
          | _ => (false, s1)
          end in
        let '(v, count, _) := scan_digits s2 0 0 in
        if count =? 0 then 0 else if neg then - v else v
      else 0
  | EmptyString => 0
  end.

(** [StrUnsignedDecimalLiteral], longest prefix. *)
Definition parse_unsigned (neg : bool) (s : string) : number :=
  if prefix "Infinity" s then S754_infinity neg
  else
    let '(int_part, int_count, s1) := scan_digits s 0 0 in
    let '(mant, frac_count, s2) :=
      match s1 with
      | String "." t =>
          let '(m, total, t') := scan_digits t int_part int_count in
          if total =? 0 then (0, 0, s1)
          else (m, total - int_count, t')
      | _ => (int_part, 0, s1)
      end in
    if (int_count =? 0) && (frac_count =? 0) then NaN
    else of_decimal neg mant (scan_exponent s2 - frac_count).

Definition parseFloat (s : string) : number :=
  match trim_start s with
  | String "-" t => parse_unsigned true t
  | String "+" t => parse_unsigned false t
  | t => parse_unsigned false t
  end.

(** *** [Array.prototype.sort] with a comparison function

    The sort is stable and, for a consistent comparison function, its
    result does not depend on the algorithm.  It is modelled as the
    insertion sort engines use on short arrays: each element is placed
    before the first element it compares below ([comparefn(x, y) < 0]),
    a [NaN] comparison counting as 0.  When the comparison function is not
    consistent on the elements (a [NaN] among them) the language leaves
    the order to the engine, and an engine may order them otherwise than
    this model; what is proved about the order below is proved for catalog
    values, on which [(a, b) => a - b] is consistent, and the rest uses
    only that the result is a permutation. *)
Fixpoint insert (comparefn : number -> number -> number)
    (x : number) (l : list number) : list number :=
  match l with
  | [] => [x]
  | y :: l' =>
      if lt (comparefn x y) (S754_zero false) then x :: y :: l'
      else y :: insert comparefn x l'
  end.

Definition sort (comparefn : number -> number -> number)
    (l : list number) : list number :=
  fold_left (fun sorted x => insert comparefn x sorted) l [].

(** *** [String.prototype.includes] *)
Fixpoint includes (s search : string) : bool :=
  prefix search s ||
  match s with
  | String _ s' => includes s' search
  | EmptyString => false
  end.

(** [a || b] on strings that may be [undefined]: the empty string and
    [undefined] are falsy. *)
Definition or_else (a : option string) (b : string) : string :=
  match a with
  | Some (String c t) => String c t
  | _ => b
  end.

(** *** [Error] objects, as a [catch] clause reads them *)
Module Error.
Record t : Type := { name : string; message : string }.
End Error.

End JS.

Import JS.

(** ** The DTO interfaces

    A field the server may leave out is an [option]: [errorData.message] is
    read through [||], so its absence is a case the component handles. *)

Module CoinInfo.
Record t : Type := { denomination : number; count : number }.
End CoinInfo.

Module CCResponse.
Record t : Type := { coins : list CoinInfo.t; totalCoins : number }.
End CCResponse.

Module ErrorResponse.
Record t : Type := { error : option string; message : option string }.
End ErrorResponse.

Module CCRequest.
Record t : Type := { amount : number; denominations : list number }.
End CCRequest.

(** ** [fetch] *)

Module Fetch.

Inductive Method : Type := GET | POST.

(** What the component passes to [fetch]; [body] is the object handed to
    [JSON.stringify]. *)
Record Request : Type := {
  url : string;
  method : Method;
  headers : list (string * string);
  mode : string;
  body : option CCRequest.t
}.

(** The parsed body: [response.json()] yields an untyped value, which the
    component casts to [ErrorResponse] or to [CCResponse] according to
    [response.ok] alone.  The type holds the two shapes of the server's
    contract, an error object and a result object, read through either
    cast.  A body of another JSON shape ([null], a primitive, an array) is
    not in it, and no theorem below speaks of one. *)
Inductive Json : Type :=
| JError (e : ErrorResponse.t)
| JResult (r : CCResponse.t).

(** [json] is [inl err] when [response.json()] rejects with [err]. *)
Record Response : Type := {
  status : Z;
  json : Error.t + Json
}.

(** [response.ok]: the status is in the range 200-299. *)
Definition ok (r : Response) : bool :=
  (200 <=? status r) && (status r <=? 299).

(** How the promise returned by [fetch] settles. *)
Inductive Outcome : Type :=
| Fulfilled (r : Response)
| Rejected (err : Error.t).

End Fetch.

(** ** ResultDisplay.tsx *)

Module ResultDisplay.

(** One breakdown row: the formatted denomination, [coin.count], the word
    after it, and the [+n] badge shown when more than five coins. *)
Record Row : Type := {
  row_denomination : number;
  row_label : string;
  row_count : number;
  row_unit : string;
  row_badge : option number
}.

Record View : Type := {
  total : number;
  rows : list Row
}.

Definition five : number := of_Z 5.
Definition one : number := of_Z 1.

Definition render_row (formatCurrency : number -> string)
    (coin : CoinInfo.t) : Row :=
  {| row_denomination := CoinInfo.denomination coin;
     row_label := formatCurrency (CoinInfo.denomination coin);
     row_count := CoinInfo.count coin;
     row_unit := if strict_eq (CoinInfo.count coin) one then "coin" else "coins";
     row_badge := if gt (CoinInfo.count coin) five
                  then Some (sub (CoinInfo.count coin) five) else None |}.

Definition ResultDisplay (formatCurrency : number -> string)
    (result : CCResponse.t) : View :=
  {| total := CCResponse.totalCoins result;
     rows := map (render_row formatCurrency) (CCResponse.coins result) |}.

End ResultDisplay.

(** ** CoinChangeCalculator

    The two revisions of the component differ in the fallback base URL and
    in styling only; the fallback is an argument of [initialState]. *)

Module CoinChangeCalculator.

Import Fetch.

Inductive ConnectionStatus : Type := checking | connected | disconnected.

(** The [useState] cells of the component.  [result] holds whatever
    object [setResult] was given: the cast [data as CCResponse] checks
    nothing. *)
Record State : Type := mkState {
  amount : string;
  selectedDenominations : list number;
  validDenominations : list number;
  result : option Json;
  error : string;
  loading : bool;
  apiUrl : string;
  connectionStatus : ConnectionStatus
}.

Definition dec (m e10 : Z) : number := of_decimal false m e10.

(** [0.01, 0.05, 0.10, 0.20, 0.50, 1.00, 2.00, 5.00, 10.00, 50.00, 100.00,
    1000.00], each literal rounded to binary64. *)
Definition catalog : list number :=
  [dec 1 (-2); dec 5 (-2); dec 10 (-2); dec 20 (-2); dec 50 (-2);
   dec 100 (-2); dec 200 (-2); dec 500 (-2); dec 1000 (-2);
   dec 5000 (-2); dec 10000 (-2); dec 100000 (-2)].

Definition fallbackUrl_localhost : string := "http://localhost:8080".
Definition fallbackUrl_deployed : string := "http://13.215.249.135:8080".

(** [import.meta.env.VITE_API_URL || fallback]. *)
Definition initialState (VITE_API_URL : option string) (fallback : string)
    : State :=
  {| amount := "";
     selectedDenominations := [];
     validDenominations := catalog;
     result := None;
     error := "";
     loading := false;
     apiUrl := or_else VITE_API_URL fallback;
     connectionStatus := checking |}.

(** *** The state setters *)

Definition setAmount (v : string) (s : State) : State :=
  mkState v (selectedDenominations s) (validDenominations s) (result s)
          (error s) (loading s) (apiUrl s) (connectionStatus s).

Definition setSelectedDenominations (f : list number -> list number)
    (s : State) : State :=
  mkState (amount s) (f (selectedDenominations s)) (validDenominations s)
          (result s) (error s) (loading s) (apiUrl s) (connectionStatus s).

Definition setResult (v : option Json) (s : State) : State :=
  mkState (amount s) (selectedDenominations s) (validDenominations s) v
          (error s) (loading s) (apiUrl s) (connectionStatus s).

Definition setError (v : string) (s : State) : State :=
  mkState (amount s) (selectedDenominations s) (validDenominations s)
          (result s) v (loading s) (apiUrl s) (connectionStatus s).

Definition setLoading (v : bool) (s : State) : State :=
  mkState (amount s) (selectedDenominations s) (validDenominations s)
          (result s) (error s) v (apiUrl s) (connectionStatus s).

Definition setApiUrl (v : string) (s : State) : State :=
  mkState (amount s) (selectedDenominations s) (validDenominations s)
          (result s) (error s) (loading s) v (connectionStatus s).

Definition setConnectionStatus (v : ConnectionStatus) (s : State) : State :=
  mkState (amount s) (selectedDenominations s) (validDenominations s)
          (result s) (error s) (loading s) (apiUrl s) v.

(** *** Messages *)

Definition msg_health_not_ok : string :=
  "API is not responding. Please check if the server is running on the correct port.".
Definition msg_health_cors : string :=
  "CORS Error: Unable to connect to API. Please ensure CORS is configured on your server and it's running on the correct port.".
Definition msg_health_unreachable : string :=
  "Unable to connect to API. Please check if the server is running.".
Definition msg_missing_input : string :=
  "Please enter an amount and select at least one denomination.".
Definition msg_invalid_amount : string :=
  "Please enter a valid amount between 0 and 10000.".
Definition msg_calculate_fallback : string :=
  "An error occurred while calculating.".
Definition msg_calculate_cors : string :=
  "CORS Error: Unable to connect to API. Please ensure CORS is configured on your server.".
Definition msg_calculate_unreachable : string :=
  "Failed to connect to the API. Please check if the server is running.".

(** [error.name === 'TypeError' && error.message.includes('Failed to fetch')] *)
Definition is_failed_to_fetch (err : Error.t) : bool :=
  String.eqb (Error.name err) "TypeError"
  && includes (Error.message err) "Failed to fetch".

(** *** checkApiHealth

    An [async] function is split at its [await]: the part that runs at the
    call, which returns the request it hands to [fetch], and the part that
    runs when the promise settles, on the state of that later moment. *)

Definition health_request (base : string) : Request :=
  {| url := base ++ "/api/v1/coin-change/health";
     method := GET;
     headers := [("Accept", "application/json")];
     mode := "cors";
     body := None |}.

Definition checkApiHealth (s : State) : State * Request :=
  (setConnectionStatus checking s, health_request (apiUrl s)).

Definition checkApiHealth_settled (o : Outcome) (s : State) : State :=
  match o with
  | Fulfilled response =>
      if negb (ok response) then
        setConnectionStatus disconnected (setError msg_health_not_ok s)
      else
        setConnectionStatus connected (setError "" s)
  | Rejected err =>
      setConnectionStatus disconnected
        (if is_failed_to_fetch err then setError msg_health_cors s
         else setError msg_health_unreachable s)
  end.

(** *** handleDenominationChange, selectAllDenominations,
    clearAllDenominations *)

Definition handleDenominationChange (denomination : number) (checked : bool)
    (s : State) : State :=
  if checked then
    setSelectedDenominations
      (fun prev => sort (fun a b => sub a b) (prev ++ [denomination])%list) s
  else
    setSelectedDenominations
      (fun prev => filter (fun d => negb (strict_eq d denomination)) prev) s.

Definition selectAllDenominations (s : State) : State :=
  setSelectedDenominations (fun _ => validDenominations s) s.

Definition clearAllDenominations (s : State) : State :=
  setSelectedDenominations (fun _ => []) s.

(** *** calculateCoins *)

Definition calculate_request (base : string) (request : CCRequest.t)
    : Request :=
  {| url := base ++ "/api/v1/coin-change/calculate";
     method := POST;
     headers := [("Content-Type", "application/json");
                 ("Accept", "application/json")];
     mode := "cors";
     body := Some request |}.

(** Up to the [await fetch(...)]: [None] is the early [return]. *)
Definition calculateCoins (s : State) : State * option Request :=
  if String.eqb (amount s) "" || (List.length (selectedDenominations s) =? 0)%nat
  then (setError msg_missing_input s, None)
  else
    let amountNum := parseFloat (amount s) in
    if isNaN amountNum || lt amountNum (of_Z 0) || gt amountNum (of_Z 10000)
    then (setError msg_invalid_amount s, None)
    else
      let s1 := setResult None (setError "" (setLoading true s)) in
      let request :=
        {| CCRequest.amount := amountNum;
           CCRequest.denominations := selectedDenominations s |} in
      (s1, Some (calculate_request (apiUrl s) request)).

(** From the settling of [fetch] to the end of [finally]. *)
Definition calculateCoins_settled (o : Outcome) (s : State) : State :=
  let on_catch (err : Error.t) :=
    if is_failed_to_fetch err then setError msg_calculate_cors s
    else setError msg_calculate_unreachable s in
  let s1 :=
    match o with
    | Fulfilled response =>
        match json response with
        | inl err => on_catch err
        | inr data =>
            if negb (ok response) then
              let errorData :=
                match data with
                | JError e => e
                | JResult _ =>
                    {| ErrorResponse.error := None;
                       ErrorResponse.message := None |}
                end in
              setError (or_else (ErrorResponse.message errorData)
                                msg_calculate_fallback) s
            else setResult (Some data) s
        end
    | Rejected err => on_catch err
    end in
  setLoading false s1.

(** *** clearForm *)

Definition clearForm (s : State) : State :=
  setError "" (setResult None (setSelectedDenominations (fun _ => [])
    (setAmount "" s))).

Definition getConnectionStatusText (s : State) : string :=
  match connectionStatus s with
  | connected => "Connected"
  | disconnected => "Disconnected"
  | checking => "Checking..."
  end.

(** *** What the component renders *)

(** [disabled={loading || connectionStatus === 'disconnected'}] *)
Definition calculate_disabled (s : State) : bool :=
  loading s ||
  match connectionStatus s with disconnected => true | _ => false end.

Record View : Type := {
  status_text : string;
  submit_disabled : bool;
  submit_label : string;
  error_box : option string;
  result_box : option ResultDisplay.View
}.

(** [{error && ...}] and [{result && <ResultDisplay .../>}].  The whole
    render is [None] when [ResultDisplay] is handed an object without
    [coins], on which [result.coins.map] throws. *)
Definition render (formatCurrency : number -> string) (s : State)
    : option View :=
  let view (r : option ResultDisplay.View) :=
    {| status_text := getConnectionStatusText s;
       submit_disabled := calculate_disabled s;
       submit_label := if loading s then "Processing..."
                       else "Calculate Exchange";
       error_box := match error s with
                    | "" => None
                    | e => Some e
                    end;
       result_box := r |} in
  match result s with
  | None => Some (view None)
  | Some (JResult r) =>
      Some (view (Some (ResultDisplay.ResultDisplay formatCurrency r)))
  | Some (JError _) => None
  end.

End CoinChangeCalculator.

(** ** The mounted component

    The component together with the requests it has issued: every step is
    one browser event (a user action or the settling of a [fetch] promise),
    handled to completion before the next.  [network] is the log of the
    calls made to [fetch]; the two counters are the promises not yet
    settled. *)

Module Session.

Import Fetch CoinChangeCalculator.

Record t : Type := mk {
  state : State;
  network : list Request;
  pendingHealth : nat;
  pendingCalculate : nat
}.

Inductive Event : Type :=
| AmountChanged (v : string)
| ApiUrlChanged (v : string)
| RefreshClicked
| DenominationChanged (denomination : number) (checked : bool)
| SelectAllClicked
| ClearAllClicked
| CalculateClicked
| ClearFormClicked
| HealthSettled (o : Outcome)
| CalculateSettled (o : Outcome).

Definition with_state (f : State -> State) (a : t) : t :=
  mk (f (state a)) (network a) (pendingHealth a) (pendingCalculate a).

Definition run_checkApiHealth (a : t) : t :=
  let '(s, request) := checkApiHealth (state a) in
  mk s (network a ++ [request])%list (S (pendingHealth a))
     (pendingCalculate a).

Definition run_calculateCoins (a : t) : t :=
  match calculateCoins (state a) with
  | (s, Some request) =>
      mk s (network a ++ [request])%list (pendingHealth a)
         (S (pendingCalculate a))
  | (s, None) => mk s (network a) (pendingHealth a) (pendingCalculate a)
  end.

(** [useEffect(() => { checkApiHealth(); }, [apiUrl])] runs once after the
    first render. *)
Definition mount (VITE_API_URL : option string) (fallback : string) : t :=
  run_checkApiHealth (mk (initialState VITE_API_URL fallback) [] 0%nat 0%nat).

Definition step (a : t) (ev : Event) : t :=
  match ev with
  | AmountChanged v => with_state (setAmount v) a
  | ApiUrlChanged v =>
      (* the effect runs again when the dependency [apiUrl] has changed *)
      if String.eqb v (apiUrl (state a)) then a
      else run_checkApiHealth (with_state (setApiUrl v) a)
  | RefreshClicked => run_checkApiHealth a
  | DenominationChanged d checked =>
      with_state (handleDenominationChange d checked) a
  | SelectAllClicked => with_state selectAllDenominations a
  | ClearAllClicked => with_state clearAllDenominations a
  | CalculateClicked =>
      (* a disabled button dispatches no click *)
      if calculate_disabled (state a) then a else run_calculateCoins a
  | ClearFormClicked => with_state clearForm a
  | HealthSettled o =>
      (* a promise settles only when one is pending *)
      match pendingHealth a with
      | O => a
      | S n =>
          mk (checkApiHealth_settled o (state a)) (network a) n
             (pendingCalculate a)
      end
  | CalculateSettled o =>
      match pendingCalculate a with
      | O => a
      | S n =>
          mk (calculateCoins_settled o (state a)) (network a)
             (pendingHealth a) n
      end
  end.

Definition run (a : t) (events : list Event) : t := fold_left step events a.

End Session.

(** ** The denomination selector as a sequence of operations *)

Module Selector.

Import CoinChangeCalculator.

Inductive Op : Type :=
| AddOne (d : number)
| RemoveOne (d : number)
| SelectAll
| ClearAll.

Definition apply (s : State) (op : Op) : State :=
  match op with
  | AddOne d => handleDenominationChange d true s
  | RemoveOne d => handleDenominationChange d false s
  | SelectAll => selectAllDenominations s
  | ClearAll => clearAllDenominations s
  end.

(** The selector offers the denominations of the catalog and no other. *)
Definition offered (op : Op) : Prop :=
  match op with
  | AddOne d | RemoveOne d => In d catalog
  | SelectAll | ClearAll => True
  end.

(** Ascending numeric order: every element is [<=] every later one. *)
Definition ascending (l : list number) : Prop :=
  StronglySorted (fun a b => le a b = true) l.

(** The invariant of the selector: the catalog is never replaced, the
    selection is drawn from it, and it is in ascending order. *)
Definition invariant (s : State) : Prop :=
  validDenominations s = catalog /\
  Forall (fun x => In x catalog) (selectedDenominations s) /\
  ascending (selectedDenominations s).

Definition zero : number := S754_zero false.

(** On the numbers of [dom], the comparison function [(a, b) => a - b]
    agrees with [<=]: a negative difference means [x <= y], any other
    means [y <= x]. *)
Definition difference_agrees_on (dom : list number) : bool :=
  forallb (fun x => forallb (fun y =>
    if lt (sub x y) zero then le x y else le y x) dom) dom.

(** [<=] is transitive on the numbers of [dom]. *)
Definition le_transitive_on (dom : list number) : bool :=
  forallb (fun x => forallb (fun y => forallb (fun z =>
    implb (le x y && le y z) (le x z)) dom) dom) dom.

Fixpoint ascendingb (l : list number) : bool :=
  match l with
  | [] => true
  | x :: l' => forallb (le x) l' && ascendingb l'
  end.

End Selector.

(** ** Local validation, in the words of the specification *)

Module Validation.

Import CoinChangeCalculator.

Definition amount_absent (s : State) : Prop := amount s = "".
Definition amount_non_numeric (s : State) : Prop :=
  isNaN (parseFloat (amount s)) = true.
Definition amount_negative (s : State) : Prop :=
  lt (parseFloat (amount s)) (of_Z 0) = true.
Definition amount_exceeds_10000 (s : State) : Prop :=
  gt (parseFloat (amount s)) (of_Z 10000) = true.
Definition nothing_selected (s : State) : Prop :=
  selectedDenominations s = [].

Definition rejected (s : State) : Prop :=
  amount_absent s \/ amount_non_numeric s \/ amount_negative s \/
  amount_exceeds_10000 s \/ nothing_selected s.

Definition is_validation_message (m : string) : Prop :=
  m = msg_missing_input \/ m = msg_invalid_amount.

End Validation.

(** ** More built-ins: [*], [Math.round], [Math.min], array lengths *)

Module JSMath.

(** [a * b]. *)
Definition mul (a b : number) : number := SFmul prec emax a b.

(** [Math.round(x)]: the integer nearest to [x], a tie going to the one
    closer to +Infinity; a result of zero keeps the sign of [x]. *)
Definition Math_round (x : number) : number :=
  match x with
  | S754_finite s m e =>
      match e with
      | Zneg k =>
          let signed := if s then Zneg m else Zpos m in
          let n := (2 * signed + Z.pow_pos 2 k) / Z.pow_pos 2 (Pos.succ k) in
          binary_normalize prec emax n 0 s
      | _ => x
      end
  | _ => x
  end.

(** [Math.min(a, b)]: [NaN] if either is, and [-0] below [+0]. *)
Definition Math_min (a b : number) : number :=
  if isNaN a || isNaN b then NaN
  else if lt a b then a
  else if lt b a then b
  else match a, b with
       | S754_zero sa, S754_zero sb => S754_zero (sa || sb)
       | _, _ => a
       end.

(** [ToLength], which [Array.from({ length: x })] applies to [x]: truncate
    toward zero, [NaN] and negatives to 0, at most 2^53 - 1. *)
Definition ToLength (x : number) : Z :=
  match x with
  | S754_nan | S754_zero _ => 0
  | S754_infinity s => if s then 0 else 2 ^ 53 - 1
  | S754_finite s m e =>
      if s then 0
      else Z.min (match e with
                  | Zneg k => Z.shiftr (Zpos m) (Zpos k)
                  | _ => Zpos m * 2 ^ e
                  end) (2 ^ 53 - 1)
  end.

(** The same binary64 value, bit for bit ([Object.is] on numbers). *)
Definition same (a b : number) : bool :=
  match a, b with
  | S754_zero s, S754_zero s' => Bool.eqb s s'
  | S754_infinity s, S754_infinity s' => Bool.eqb s s'
  | S754_nan, S754_nan => true
  | S754_finite s m e, S754_finite s' m' e' =>
      Bool.eqb s s' && Pos.eqb m m' && Z.eqb e e'
  | _, _ => false
  end.

(** The numbers the engine can hold: canonical binary64 values. *)
Definition is_binary64 (a : number) : Prop := valid_binary prec emax a = true.

(** The cent sign, code unit 162. *)
Definition cent_sign : string := String (ascii_of_nat 162) EmptyString.

End JSMath.

Import JSMath.

(** ** ResultDisplay.tsx: the coin icons of a breakdown row

    [toString] is the conversion a template literal applies to a number. *)

Module ResultIcons.

Definition getCoinColor (value : number) : string :=
  if ge value (of_Z 100) then "from-green-400 to-green-600"
  else if ge value (of_Z 50) then "from-purple-400 to-purple-600"
  else if ge value (of_Z 10) then "from-blue-400 to-blue-600"
  else if ge value (of_Z 5) then "from-red-400 to-red-600"
  else if ge value (of_Z 1) then "from-yellow-400 to-yellow-600"
  else if ge value (of_decimal false 50 (-2)) then "from-gray-300 to-gray-500"
  else if ge value (of_decimal false 10 (-2)) then "from-orange-300 to-orange-500"
  else "from-amber-300 to-amber-500".

Definition getCoinSize (value : number) : string :=
  if ge value (of_Z 100) then "w-12 h-8"
  else if ge value (of_Z 50) then "w-10 h-10"
  else if ge value (of_Z 10) then "w-9 h-9"
  else if ge value (of_Z 1) then "w-8 h-8"
  else "w-7 h-7".

Definition getCoinText (toString : number -> string) (value : number)
    : string :=
  if ge value (of_Z 100) then "$" ++ toString value
  else if ge value (of_Z 1) then "$" ++ toString value
  else toString (Math_round (mul value (of_Z 100))) ++ cent_sign.

Definition isLargeDenomination (coin : CoinInfo.t) : bool :=
  ge (CoinInfo.denomination coin) (of_Z 100).

(** The single coin at the left of a row. *)
Record Icon : Type := {
  icon_size : string;
  icon_colour : string;
  icon_shape : string;
  icon_ring : bool;
  icon_text : string
}.

Definition coin_icon (toString : number -> string) (coin : CoinInfo.t)
    : Icon :=
  {| icon_size := getCoinSize (CoinInfo.denomination coin);
     icon_colour := getCoinColor (CoinInfo.denomination coin);
     icon_shape := if isLargeDenomination coin then "rounded-md"
                   else "rounded-full";
     icon_ring := negb (isLargeDenomination coin);
     icon_text := getCoinText toString (CoinInfo.denomination coin) |}.

(** One coin of the fanned stack at the right of a row, by its index [i]:
    [animationDelay: i * 100 ms], [translateX(i * -8 px)],
    [rotate(i * 10 deg)], [zIndex: 5 - i]. *)
Record Stacked : Type := {
  stacked_delay_ms : Z;
  stacked_shift_px : Z;
  stacked_rotate_deg : Z;
  stacked_zIndex : Z
}.

Definition stacked_coin (i : nat) : Stacked :=
  {| stacked_delay_ms := Z.of_nat i * 100;
     stacked_shift_px := Z.of_nat i * -8;
     stacked_rotate_deg := Z.of_nat i * 10;
     stacked_zIndex := 5 - Z.of_nat i |}.

(** [Array.from({ length: Math.min(coin.count, 5) }, (_, i) => ...)] *)
Definition stack (coin : CoinInfo.t) : list Stacked :=
  map stacked_coin
      (seq 0 (Z.to_nat (ToLength (Math_min (CoinInfo.count coin) (of_Z 5))))).

End ResultIcons.

(** ** CoinDisplay.tsx *)

Module CoinDisplay.

Definition getCoinColor (value : number) : string :=
  if ge value (of_Z 100) then "from-green-400 to-green-600"
  else if ge value (of_Z 50) then "from-purple-400 to-purple-600"
  else if ge value (of_Z 10) then "from-blue-400 to-blue-600"
  else if ge value (of_Z 5) then "from-red-400 to-red-600"
  else if ge value (of_Z 1) then "from-yellow-400 to-yellow-600"
  else if ge value (of_decimal false 50 (-2)) then "from-gray-300 to-gray-500"
  else if ge value (of_decimal false 10 (-2)) then "from-orange-300 to-orange-500"
  else "from-amber-300 to-amber-500".

Definition getCoinSize (value : number) : string :=
  if ge value (of_Z 100) then "w-16 h-10"
  else if ge value (of_Z 50) then "w-14 h-14"
  else if ge value (of_Z 10) then "w-12 h-12"
  else if ge value (of_Z 1) then "w-11 h-11"
  else if ge value (of_decimal false 25 (-2)) then "w-10 h-10"
  else if ge value (of_decimal false 10 (-2)) then "w-9 h-9"
  else "w-8 h-8".

Definition getCoinText (toString : number -> string) (value : number)
    : string :=
  if ge value (of_Z 100) then "$" ++ toString value
  else if ge value (of_Z 1) then "$" ++ toString value
  else toString (Math_round (mul value (of_Z 100))) ++ cent_sign.

Record Props : Type := {
  denomination : number;
  isSelected : bool
}.

Definition isLargeDenomination (p : Props) : bool :=
  ge (denomination p) (of_Z 100).

Record View : Type := {
  checkbox_checked : bool;
  card_highlighted : bool;
  coin_size : string;
  coin_colour : string;
  coin_shape : string;
  coin_pulse : bool;
  bill_pattern : bool;
  coin_ridges : bool;
  coin_text : string;
  value_label : string;
  value_label_emphasis : bool;
  selection_indicator : bool
}.

Definition CoinDisplay (toString : number -> string)
    (formatCurrency : number -> string) (p : Props) : View :=
  {| checkbox_checked := isSelected p;
     card_highlighted := isSelected p;
     coin_size := getCoinSize (denomination p);
     coin_colour := getCoinColor (denomination p);
     coin_shape := if isLargeDenomination p then "rounded-lg"
                   else "rounded-full";
     coin_pulse := isSelected p;
     bill_pattern := isLargeDenomination p;
     coin_ridges := negb (isLargeDenomination p);
     coin_text := getCoinText toString (denomination p);
     value_label := formatCurrency (denomination p);
     value_label_emphasis := isSelected p;
     selection_indicator := isSelected p |}.

End CoinDisplay.

(** ** The rest of the calculator: the connection badge *)

Module ConnectionBadge.

Import CoinChangeCalculator.

Inductive IconName : Type := Wifi | WifiOff | Loader2.

(** [getConnectionIcon]: the icon and its class.  The [default] branch of
    the [switch] has no value of the state's type to reach it. *)
Definition getConnectionIcon (s : State) : IconName * string :=
  match connectionStatus s with
  | connected => (Wifi, "w-4 h-4 text-green-500")
  | disconnected => (WifiOff, "w-4 h-4 text-red-500")
  | checking => (Loader2, "w-4 h-4 text-yellow-500 animate-spin")
  end.

End ConnectionBadge.

(** ** What goes over the wire *)

Module Wire.

Import Fetch CoinChangeCalculator.

Definition accept_json : string * string := ("Accept", "application/json").
Definition content_type_json : string * string :=
  ("Content-Type", "application/json").

(** A health probe: a GET of [<base>/api/v1/coin-change/health] that
    declares [Accept] and has no body. *)
Definition is_health_probe (r : Request) : Prop :=
  method r = GET /\ body r = None /\ headers r = [accept_json] /\
  mode r = "cors" /\
  exists base, url r = base ++ "/api/v1/coin-change/health".

(** A change request within the bounds of the form. *)
Definition in_bounds (payload : CCRequest.t) : Prop :=
  le (of_Z 0) (CCRequest.amount payload) = true /\
  le (CCRequest.amount payload) (of_Z 10000) = true /\
  CCRequest.denominations payload <> [].

(** A calculate call: a POST of [<base>/api/v1/coin-change/calculate] that
    declares [Content-Type] and [Accept] and carries a [CCRequest]. *)
Definition is_calculate_call (P : CCRequest.t -> Prop) (r : Request) : Prop :=
  method r = POST /\ headers r = [content_type_json; accept_json] /\
  mode r = "cors" /\
  (exists base, url r = base ++ "/api/v1/coin-change/calculate") /\
  exists payload, body r = Some payload /\ P payload.

Definition well_formed (P : CCRequest.t -> Prop) (r : Request) : Prop :=
  is_health_probe r \/ is_calculate_call P r.

(** The denominations of a request are catalog values in ascending order. *)
Definition sorted_from_catalog (payload : CCRequest.t) : Prop :=
  Forall (fun d => In d catalog) (CCRequest.denominations payload) /\
  Selector.ascending (CCRequest.denominations payload).

(** The events in which the selector hands a catalog denomination to
    [onDenominationChange]. *)
Definition from_selector (ev : Session.Event) : Prop :=
  match ev with
  | Session.DenominationChanged d _ => In d catalog
  | _ => True
  end.

End Wire.

(** ** The selector behind its checkboxes *)

Module Gated.

Import CoinChangeCalculator.

(** A checkbox bound to the selection reports [checked = true] only for a
    denomination that is not selected yet. *)
Definition allowed (s : State) (op : Selector.Op) : Prop :=
  match op with
  | Selector.AddOne d => In d catalog /\ ~ In d (selectedDenominations s)
  | Selector.RemoveOne d => In d catalog
  | Selector.SelectAll | Selector.ClearAll => True
  end.

Fixpoint feasible (s : State) (ops : list Selector.Op) : Prop :=
  match ops with
  | [] => True
  | op :: ops' => allowed s op /\ feasible (Selector.apply s op) ops'
  end.

(** Strictly ascending: every element is [<] every later one. *)
Definition strictly_ascending (l : list number) : Prop :=
  StronglySorted (fun a b => lt a b = true) l.

(** On [dom]: [===] holds between identical values only, [<=] between
    different values is [<], and a difference is negative exactly for
    [<]. *)
Definition strict_on (dom : list number) : bool :=
  forallb (fun x => forallb (fun y =>
    Bool.eqb (strict_eq x y) (same x y) &&
    Bool.eqb (lt x y) (le x y && negb (same x y)) &&
    Bool.eqb (lt (sub x y) Selector.zero) (lt x y)) dom) dom.

Fixpoint strictly_ascendingb (l : list number) : bool :=
  match l with
  | [] => true
  | x :: l' => forallb (lt x) l' && strictly_ascendingb l'
  end.

End Gated.

(** ** Counts and cents, over a range *)

Module Range.

Fixpoint all_from (f : Z -> bool) (start : Z) (len : nat) : bool :=
  match len with
  | O => true
  | S k => f start && all_from f (start + 1) k
  end.

(** The text of a coin below one dollar names its whole cents. *)
Definition cents_exact (c : Z) : bool :=
  let value := of_decimal false c (-2) in
  negb (ge value (of_Z 100)) && negb (ge value (of_Z 1)) &&
  same (Math_round (mul value (of_Z 100))) (of_Z c).

(** For a whole count [n]: the stack holds [min n 5] coins and the badge
    the rest. *)
Definition row_accounts (n : Z) : bool :=
  let coin := {| CoinInfo.denomination := of_Z 1; CoinInfo.count := of_Z n |} in
  (Z.of_nat (List.length (ResultIcons.stack coin)) =? Z.min n 5) &&
  match ResultDisplay.row_badge (ResultDisplay.render_row (fun _ => "") coin) with
  | Some extra => (5 <? n) && same extra (of_Z (n - 5))
  | None => n <=? 5
  end &&
  Bool.eqb (String.eqb (ResultDisplay.row_unit
                          (ResultDisplay.render_row (fun _ => "") coin)) "coin")
           (n =? 1).

End Range.

(** ** Between a submission and its answer *)

Module Exchange.

Import Fetch CoinChangeCalculator.

(** The events that can come between a calculate request and its
    settling without a health probe failing: anything but the settling of
    a calculate request and the settling of a probe rejected or answered
    outside 200-299. *)
Definition quiet (ev : Session.Event) : Prop :=
  match ev with
  | Session.CalculateSettled _ => False
  | Session.HealthSettled (Fulfilled response) => ok response = true
  | Session.HealthSettled (Rejected _) => False
  | _ => True
  end.

End Exchange.

Import Fetch CoinChangeCalculator.

(** * Properties *)

(** ** The model of numbers, run on known values *)

(** 0.1 is 0x1.999999999999ap-4 and 10000 is exact. *)
Example of_decimal_known_values :
  of_decimal false 1 (-1) = S754_finite false 7205759403792794 (-56) /\
  of_Z 10000 = S754_finite false 5497558138880000 (-39) /\
  of_decimal false 17976931348623157 292
    = S754_finite false 9007199254740991 971 /\
  of_decimal false 17976931348623159 292 = Infinity /\
  of_decimal false 49 (-325) = S754_finite false 1 (-1074) /\
  of_decimal false 2 (-324) = S754_zero false.
Proof. vm_compute. repeat split. Qed.

#[local] Set Warnings "-inexact-float".

(** The literals of the catalog are the binary64 values the kernel's own
    float parser gives for the same decimal text. *)
Example catalog_matches_primitive_floats :
  map Prim2SF
    [0.01; 0.05; 0.10; 0.20; 0.50; 1.00; 2.00; 5.00; 10.00; 50.00; 100.00;
     1000.00]%float
  = catalog.
Proof. vm_compute. reflexivity. Qed.

Example parseFloat_examples :
  parseFloat "0.41" = of_decimal false 41 (-2) /\
  parseFloat "  -5" = of_decimal true 5 0 /\
  parseFloat "1e5" = of_Z 100000 /\
  parseFloat ".5" = of_decimal false 5 (-1) /\
  parseFloat "5." = of_Z 5 /\
  parseFloat "-0" = S754_zero true /\
  parseFloat "Infinity" = Infinity /\
  parseFloat "1e400" = Infinity /\
  parseFloat "12abc" = of_Z 12 /\
  parseFloat "3e" = of_Z 3 /\
  parseFloat "" = NaN /\
  parseFloat "abc" = NaN /\
  parseFloat "." = NaN /\
  parseFloat "-" = NaN /\
  parseFloat "e5" = NaN.
Proof. vm_compute. repeat split. Qed.

(** The comparisons of [calculateCoins] are made on the parsed number: a
    text whose decimal value is above 10000 by less than half a unit in the
    last place parses to 10000 itself. *)
Example parseFloat_rounds_to_nearest :
  parseFloat "10000.0000000000000001" = of_Z 10000 /\
  gt (parseFloat "10000.0000000000000001") (of_Z 10000) = false /\
  gt (parseFloat "10000.000000000001") (of_Z 10000) = true.
Proof. vm_compute. repeat split. Qed.

(** ** Sorting *)

Lemma insert_Permutation (comparefn : number -> number -> number) x l :
  Permutation (insert comparefn x l) (x :: l).
Proof.
  induction l as [|y l IH]; simpl.
  - apply Permutation_refl.
  - destruct (lt (comparefn x y) (S754_zero false)).
    + apply Permutation_refl.
    + eapply perm_trans; [apply perm_skip, IH | apply perm_swap].
Qed.

Lemma fold_insert_Permutation (comparefn : number -> number -> number) l :
  forall sorted,
    Permutation
      (fold_left (fun sorted x => insert comparefn x sorted) l sorted)
      (l ++ sorted)%list.
Proof.
  induction l as [|x l IH]; intros sorted; simpl.
  - apply Permutation_refl.
  - eapply perm_trans; [apply IH|].
    eapply perm_trans;
      [apply Permutation_app_head, insert_Permutation|].
    apply Permutation_sym, Permutation_middle.
Qed.

Lemma sort_Permutation (comparefn : number -> number -> number) l :
  Permutation (sort comparefn l) l.
Proof.
  unfold sort. eapply perm_trans; [apply fold_insert_Permutation|].
  rewrite app_nil_r. apply Permutation_refl.
Qed.

Lemma ascendingb_ascending l :
  Selector.ascendingb l = true -> Selector.ascending l.
Proof.
  induction l as [|x l IH]; simpl; intros H.
  - constructor.
  - apply andb_true_iff in H as [Hx Hl]. constructor.
    + apply IH, Hl.
    + apply Forall_forall. intros y Hy.
      rewrite forallb_forall in Hx. apply Hx, Hy.
Qed.

Section SortOnDomain.

Variable dom : list number.
Hypothesis dom_agrees : Selector.difference_agrees_on dom = true.
Hypothesis dom_transitive : Selector.le_transitive_on dom = true.

Let within (l : list number) : Prop := Forall (fun x => In x dom) l.

Lemma negative_difference_le x y :
  In x dom -> In y dom -> lt (sub x y) Selector.zero = true -> le x y = true.
Proof.
  intros Hx Hy Hlt. unfold Selector.difference_agrees_on in dom_agrees.
  rewrite forallb_forall in dom_agrees.
  specialize (dom_agrees x Hx). rewrite forallb_forall in dom_agrees.
  specialize (dom_agrees y Hy). now rewrite Hlt in dom_agrees.
Qed.

Lemma other_difference_ge x y :
  In x dom -> In y dom -> lt (sub x y) Selector.zero = false -> le y x = true.
Proof.
  intros Hx Hy Hlt. unfold Selector.difference_agrees_on in dom_agrees.
  rewrite forallb_forall in dom_agrees.
  specialize (dom_agrees x Hx). rewrite forallb_forall in dom_agrees.
  specialize (dom_agrees y Hy). now rewrite Hlt in dom_agrees.
Qed.

Lemma le_trans_dom x y z :
  In x dom -> In y dom -> In z dom ->
  le x y = true -> le y z = true -> le x z = true.
Proof.
  intros Hx Hy Hz Hxy Hyz. unfold Selector.le_transitive_on in dom_transitive.
  rewrite forallb_forall in dom_transitive.
  specialize (dom_transitive x Hx). rewrite forallb_forall in dom_transitive.
  specialize (dom_transitive y Hy). rewrite forallb_forall in dom_transitive.
  specialize (dom_transitive z Hz).
  now rewrite Hxy, Hyz in dom_transitive.
Qed.

Lemma insert_within x l : In x dom -> within l -> within (insert sub x l).
Proof.
  intros Hx Hl. unfold within.
  eapply Permutation_Forall;
    [apply Permutation_sym, insert_Permutation|].
  now constructor.
Qed.

Lemma insert_ascending x l :
  In x dom -> within l -> Selector.ascending l ->
  Selector.ascending (insert sub x l).
Proof.
  intros Hx. induction l as [|y l IH]; intros Hin Hasc; simpl.
  - repeat constructor.
  - inversion Hin as [|? ? Hy Hl]; subst.
    inversion Hasc as [|? ? Hsorted Hall]; subst.
    destruct (lt (sub x y) (S754_zero false)) eqn:Hlt.
    + constructor; [exact Hasc|].
      pose proof (negative_difference_le x y Hx Hy Hlt) as Hxy.
      constructor; [exact Hxy|].
      rewrite Forall_forall in *. intros z Hz.
      apply (le_trans_dom x y z); auto.
    + constructor; [now apply IH|].
      eapply Permutation_Forall;
        [apply Permutation_sym, insert_Permutation|].
      constructor; [|exact Hall].
      now apply other_difference_ge.
Qed.

Lemma sort_ascending l : within l -> Selector.ascending (sort sub l).
Proof.
  intros Hl. unfold sort.
  assert (Hgen : forall sorted, within sorted -> Selector.ascending sorted ->
            Selector.ascending
              (fold_left (fun sorted x => insert sub x sorted) l sorted)).
  { induction Hl as [|x l Hx Hl IH]; intros sorted Hin Hasc; simpl.
    - exact Hasc.
    - apply IH; [now apply insert_within | now apply insert_ascending]. }
  apply Hgen; constructor.
Qed.

End SortOnDomain.

Lemma filter_ascending (f : number -> bool) l :
  Selector.ascending l -> Selector.ascending (filter f l).
Proof.
  induction 1 as [|x l Hsorted IH Hall]; simpl.
  - constructor.
  - destruct (f x); [|exact IH].
    constructor; [exact IH|].
    rewrite Forall_forall in *. intros y Hy.
    apply filter_In in Hy as [Hy _]. now apply Hall.
Qed.

Lemma catalog_difference_agrees :
  Selector.difference_agrees_on catalog = true.
Proof. vm_compute. reflexivity. Qed.

Lemma catalog_le_transitive : Selector.le_transitive_on catalog = true.
Proof. vm_compute. reflexivity. Qed.

Lemma catalog_ascending : Selector.ascending catalog.
Proof. apply ascendingb_ascending. vm_compute. reflexivity. Qed.

(** ** The denomination selector *)

Lemma toggle_on_Permutation d s :
  Permutation (selectedDenominations (handleDenominationChange d true s))
              (d :: selectedDenominations s).
Proof.
  simpl. eapply perm_trans; [apply sort_Permutation|].
  apply Permutation_sym, Permutation_cons_append.
Qed.

(** C2, as the specification words it, fails: the handler appends the
    denomination and sorts, with no membership test, so toggling 0.05 on
    twice from the empty selection leaves two copies of it, which is not what
    toggling it on once leaves. *)
Lemma toggle_on_twice_keeps_two_copies :
  let d := dec 5 (-2) in
  let once :=
    handleDenominationChange d true (initialState None fallbackUrl_localhost) in
  let twice := handleDenominationChange d true once in
  selectedDenominations once = [d] /\
  selectedDenominations twice = [d; d] /\
  selectedDenominations twice <> selectedDenominations once /\
  ~ NoDup (selectedDenominations twice).
Proof.
  vm_compute. repeat split.
  - discriminate.
  - intros H. inversion H as [|x l Hnotin _]; subst.
    apply Hnotin. left. reflexivity.
Qed.

(** C2, amended: toggling on a denomination [d] that is not in a
    duplicate-free selection yields a duplicate-free selection holding [d]
    and the elements it held before; in every case the new selection is the
    old one with one more copy of [d]. *)
Theorem toggle_on_fresh_keeps_NoDup d s :
  NoDup (selectedDenominations s) ->
  ~ In d (selectedDenominations s) ->
  let s' := handleDenominationChange d true s in
  NoDup (selectedDenominations s') /\
  Permutation (selectedDenominations s') (d :: selectedDenominations s) /\
  (forall x, In x (selectedDenominations s') <->
             x = d \/ In x (selectedDenominations s)).
Proof.
  intros Hnodup Hfresh s'.
  pose proof (toggle_on_Permutation d s) as Hperm. fold s' in Hperm.
  split; [|split].
  - eapply Permutation_NoDup; [apply Permutation_sym, Hperm|].
    now constructor.
  - exact Hperm.
  - intros x. split; intros Hx.
    + apply (Permutation_in _ Hperm) in Hx. destruct Hx as [->|Hx]; auto.
    + apply (Permutation_in _ (Permutation_sym Hperm)).
      destruct Hx as [->|Hx]; [now left | now right].
Qed.

Lemma toggle_on_fresh_keeps_NoDup_witness :
  let s := handleDenominationChange (dec 20 (-2)) true
             (initialState None fallbackUrl_localhost) in
  NoDup (selectedDenominations (handleDenominationChange (dec 1 (-2)) true s)) /\
  selectedDenominations (handleDenominationChange (dec 1 (-2)) true s)
    = [dec 1 (-2); dec 20 (-2)].
Proof.
  split.
  - apply (toggle_on_fresh_keeps_NoDup (dec 1 (-2))).
    + repeat constructor. simpl. intros [].
    + simpl. intros [H|[]]. discriminate H.
  - reflexivity.
Defined.

Lemma selector_invariant_initial env fallback :
  Selector.invariant (initialState env fallback).
Proof. repeat split; constructor. Qed.

Lemma selector_invariant_apply s op :
  Selector.offered op -> Selector.invariant s ->
  Selector.invariant (Selector.apply s op).
Proof.
  intros Hop (Hvalid & Hin & Hasc).
  destruct op as [d|d| |]; unfold Selector.invariant, Selector.offered in *;
    cbn [Selector.apply handleDenominationChange selectAllDenominations
         clearAllDenominations setSelectedDenominations
         selectedDenominations validDenominations].
  - assert (Hall : Forall (fun x => In x catalog)
                     (selectedDenominations s ++ [d])%list).
    { apply Forall_app. split; [exact Hin | now constructor]. }
    repeat split; [exact Hvalid | |].
    + eapply Permutation_Forall;
        [apply Permutation_sym, sort_Permutation | exact Hall].
    + apply (sort_ascending catalog catalog_difference_agrees
               catalog_le_transitive), Hall.
  - repeat split; [exact Hvalid | |].
    + rewrite Forall_forall in *. intros x Hx.
      apply filter_In in Hx as [Hx _]. now apply Hin.
    + now apply filter_ascending.
  - rewrite Hvalid. repeat split.
    + apply Forall_forall. auto.
    + apply catalog_ascending.
  - repeat split; [exact Hvalid | constructor | constructor].
Qed.

(** C3: starting from the empty selection of the freshly mounted component,
    after every sequence of selector operations (add-one and remove-one of
    catalog denominations, select-all, clear-all) the selected list is in
    ascending numeric order. *)
Theorem selection_stays_ascending env fallback ops :
  Forall Selector.offered ops ->
  Selector.ascending
    (selectedDenominations
       (fold_left Selector.apply ops (initialState env fallback))).
Proof.
  intros Hops.
  assert (Hgen : forall s, Selector.invariant s ->
            Selector.invariant (fold_left Selector.apply ops s)).
  { induction Hops as [|op ops Hop Hops IH]; intros s Hs; simpl.
    - exact Hs.
    - apply IH, selector_invariant_apply; assumption. }
  apply (Hgen _ (selector_invariant_initial env fallback)).
Qed.

Lemma selection_stays_ascending_witness :
  Selector.ascending
    (selectedDenominations
       (fold_left Selector.apply
          [Selector.AddOne (dec 100 (-2)); Selector.AddOne (dec 5 (-2));
           Selector.SelectAll; Selector.RemoveOne (dec 20 (-2));
           Selector.ClearAll; Selector.AddOne (dec 50 (-2));
           Selector.AddOne (dec 1 (-2))]
          (initialState None fallbackUrl_localhost))).
Proof.
  apply selection_stays_ascending.
  repeat (apply Forall_cons || apply Forall_nil);
    vm_compute; auto 20 using eq_refl.
Defined.

(** ** Local validation *)

Lemma calculateCoins_cases s :
  (exists m, Validation.is_validation_message m /\
             calculateCoins s = (setError m s, None)) \/
  (exists request,
     calculateCoins s =
       (setResult None (setError "" (setLoading true s)), Some request) /\
     request =
       calculate_request (apiUrl s)
         {| CCRequest.amount := parseFloat (amount s);
            CCRequest.denominations := selectedDenominations s |}).
Proof.
  unfold calculateCoins.
  destruct (String.eqb (amount s) ""
            || (List.length (selectedDenominations s) =? 0)%nat).
  - left. exists msg_missing_input. split; [now left | reflexivity].
  - destruct (isNaN (parseFloat (amount s))
              || lt (parseFloat (amount s)) (of_Z 0)
              || gt (parseFloat (amount s)) (of_Z 10000)).
    + left. exists msg_invalid_amount. split; [now right | reflexivity].
    + right. eexists. split; reflexivity.
Qed.

Lemma validation_message_not_empty m :
  Validation.is_validation_message m -> m <> "".
Proof. intros [-> | ->]; discriminate. Qed.

Lemma rejected_calculateCoins s :
  Validation.rejected s ->
  exists m, Validation.is_validation_message m /\
            calculateCoins s = (setError m s, None).
Proof.
  unfold Validation.rejected, Validation.amount_absent,
    Validation.amount_non_numeric, Validation.amount_negative,
    Validation.amount_exceeds_10000, Validation.nothing_selected.
  intros H. unfold calculateCoins.
  destruct (String.eqb (amount s) ""
            || (List.length (selectedDenominations s) =? 0)%nat) eqn:Hmissing.
  - exists msg_missing_input. split; [now left | reflexivity].
  - apply orb_false_iff in Hmissing as [Hamount Hselected].
    destruct H as [H | [H | [H | [H | H]]]].
    + rewrite H in Hamount. discriminate Hamount.
    + rewrite H. exists msg_invalid_amount. split; [now right | reflexivity].
    + rewrite H, orb_true_r.
      exists msg_invalid_amount. split; [now right | reflexivity].
    + rewrite H, orb_true_r.
      exists msg_invalid_amount. split; [now right | reflexivity].
    + rewrite H in Hselected. discriminate Hselected.
Qed.

Lemma not_rejected_calculateCoins s :
  ~ Validation.rejected s ->
  calculateCoins s
    = (setResult None (setError "" (setLoading true s)),
       Some (calculate_request (apiUrl s)
               {| CCRequest.amount := parseFloat (amount s);
                  CCRequest.denominations := selectedDenominations s |})).
Proof.
  intros Hvalid. unfold calculateCoins.
  destruct (String.eqb (amount s) ""
            || (List.length (selectedDenominations s) =? 0)%nat) eqn:E1.
  - exfalso. apply Hvalid. apply orb_true_iff in E1 as [E1|E1].
    + left. now apply String.eqb_eq.
    + right. right. right. right. unfold Validation.nothing_selected.
      apply Nat.eqb_eq in E1. now apply length_zero_iff_nil.
  - destruct (isNaN (parseFloat (amount s))
              || lt (parseFloat (amount s)) (of_Z 0)
              || gt (parseFloat (amount s)) (of_Z 10000)) eqn:E2;
      [|reflexivity].
    exfalso. apply Hvalid. apply orb_true_iff in E2 as [E2|E2].
    + apply orb_true_iff in E2 as [E2|E2].
      * right. left. exact E2.
      * right. right. left. exact E2.
    + right. right. right. left. exact E2.
Qed.

(** [<] and [>] are each other's mirror image, so a number that is not
    [NaN] and fails [a < b] satisfies [b <= a]. *)
Lemma SFcompare_antisym a b :
  SFcompare b a = option_map CompOpp (SFcompare a b).
Proof.
  destruct a as [sa|sa| |sa ma ea], b as [sb|sb| |sb mb eb]; simpl;
    try reflexivity;
    try (destruct sa; reflexivity);
    try (destruct sb; reflexivity);
    try (destruct sa, sb; reflexivity).
  destruct sa, sb; try reflexivity;
    rewrite (Z.compare_antisym ea eb);
    destruct (Z.compare ea eb); simpl; try reflexivity;
    rewrite (Pos.compare_cont_antisym ma mb Eq); reflexivity.
Qed.

Lemma not_lt_le a b :
  isNaN a = false -> isNaN b = false -> lt a b = false -> le b a = true.
Proof.
  unfold lt, le, SFltb, SFleb. intros Ha Hb.
  rewrite (SFcompare_antisym a b).
  destruct a, b; try discriminate Ha; try discriminate Hb;
    destruct (SFcompare _ _) as [[| |]|] eqn:E; simpl;
    try reflexivity; try discriminate;
    simpl in E; try discriminate E;
    repeat match type of E with
           | context [if ?c then _ else _] => destruct c
           end; discriminate E.
Qed.

(** Every request [calculateCoins] hands to [fetch] is a POST to the
    calculate endpoint of the current base URL whose body carries an amount
    between 0 and 10000 and a selection that is not empty. *)
Lemma issued_request_is_valid s s1 request :
  calculateCoins s = (s1, Some request) ->
  exists payload,
    request = calculate_request (apiUrl s) payload /\
    CCRequest.amount payload = parseFloat (amount s) /\
    CCRequest.denominations payload = selectedDenominations s /\
    le (of_Z 0) (CCRequest.amount payload) = true /\
    le (CCRequest.amount payload) (of_Z 10000) = true /\
    selectedDenominations s <> [] /\ amount s <> "".
Proof.
  unfold calculateCoins.
  destruct (String.eqb (amount s) ""
            || (List.length (selectedDenominations s) =? 0)%nat) eqn:Hmissing;
    [discriminate|].
  destruct (isNaN (parseFloat (amount s))
            || lt (parseFloat (amount s)) (of_Z 0)
            || gt (parseFloat (amount s)) (of_Z 10000)) eqn:Hrange;
    [discriminate|].
  intros H. inversion H; subst. clear H.
  apply orb_false_iff in Hmissing as [Hamount Hselected].
  apply orb_false_iff in Hrange as [Hrange Hgt].
  apply orb_false_iff in Hrange as [Hnan Hlt].
  eexists. repeat (split; [reflexivity|]). cbn [CCRequest.amount].
  split; [|split; [|split]].
  - apply not_lt_le; [exact Hnan | reflexivity | exact Hlt].
  - apply not_lt_le; [reflexivity | exact Hnan | exact Hgt].
  - intros Hnil. rewrite Hnil in Hselected. discriminate Hselected.
  - intros Hempty. rewrite Hempty in Hamount. discriminate Hamount.
Qed.

(** C1: when the amount text is absent, does not parse to a number, parses
    to a negative number or to a number above 10000, or when no denomination
    is selected, [calculateCoins] returns before [fetch] with a non-empty
    validation message in the error state, and a click on Calculate adds
    nothing to the calls made to the network. *)
Theorem invalid_submission_stays_local (a : Session.t) :
  Validation.rejected (Session.state a) ->
  (exists m,
     Validation.is_validation_message m /\ m <> "" /\
     calculateCoins (Session.state a) = (setError m (Session.state a), None) /\
     error (fst (calculateCoins (Session.state a))) = m) /\
  Session.network (Session.step a Session.CalculateClicked)
    = Session.network a /\
  Session.pendingCalculate (Session.step a Session.CalculateClicked)
    = Session.pendingCalculate a.
Proof.
  intros Hrejected.
  destruct (rejected_calculateCoins _ Hrejected) as (m & Hm & Hcalc).
  split.
  - exists m. repeat split; auto using validation_message_not_empty.
    now rewrite Hcalc.
  - simpl. destruct (calculate_disabled (Session.state a)); [now split|].
    unfold Session.run_calculateCoins. rewrite Hcalc. now split.
Qed.

Lemma invalid_submission_stays_local_witness :
  let a :=
    Session.run (Session.mount None fallbackUrl_localhost)
      [Session.AmountChanged "10000.01";
       Session.DenominationChanged (dec 5 (-2)) true] in
  Session.network (Session.step a Session.CalculateClicked)
    = [health_request fallbackUrl_localhost] /\
  error (Session.state (Session.step a Session.CalculateClicked))
    = msg_invalid_amount.
Proof.
  intros a. split.
  - transitivity (Session.network a); [|reflexivity].
    apply (invalid_submission_stays_local a).
    right. right. right. left. vm_compute. reflexivity.
  - vm_compute. reflexivity.
Defined.

(** ** The health probe *)

(** C4: a 2xx answer to the health probe sets the connection state to
    connected and empties the error; any other status and any rejection of
    [fetch] set it to disconnected with a non-empty message, and the message
    of a rejected [fetch] is never the one of a non-2xx answer. *)
Theorem health_probe_outcomes (s : State) :
  (forall response,
     200 <= status response <= 299 ->
     let s' := checkApiHealth_settled (Fulfilled response) s in
     connectionStatus s' = connected /\ error s' = "") /\
  (forall response,
     ~ 200 <= status response <= 299 ->
     let s' := checkApiHealth_settled (Fulfilled response) s in
     connectionStatus s' = disconnected /\ error s' = msg_health_not_ok /\
     error s' <> "" /\ calculate_disabled s' = true) /\
  (forall err,
     let s' := checkApiHealth_settled (Rejected err) s in
     connectionStatus s' = disconnected /\
     error s' = (if is_failed_to_fetch err then msg_health_cors
                 else msg_health_unreachable) /\
     error s' <> "" /\ error s' <> msg_health_not_ok /\
     calculate_disabled s' = true).
Proof.
  repeat split.
  - simpl. unfold ok.
    replace ((200 <=? status response) && (status response <=? 299))
      with true by (symmetry; apply andb_true_iff; split; apply Z.leb_le; lia).
    reflexivity.
  - simpl. unfold ok.
    replace ((200 <=? status response) && (status response <=? 299))
      with true by (symmetry; apply andb_true_iff; split; apply Z.leb_le; lia).
    reflexivity.
  - simpl. unfold ok.
    destruct ((200 <=? status response) && (status response <=? 299)) eqn:E;
      [|reflexivity].
    apply andb_true_iff in E as [E1 E2]. apply Z.leb_le in E1, E2. lia.
  - simpl. unfold ok.
    destruct ((200 <=? status response) && (status response <=? 299)) eqn:E;
      [|reflexivity].
    apply andb_true_iff in E as [E1 E2]. apply Z.leb_le in E1, E2. lia.
  - simpl. unfold ok.
    destruct ((200 <=? status response) && (status response <=? 299)) eqn:E;
      [|discriminate].
    apply andb_true_iff in E as [E1 E2]. apply Z.leb_le in E1, E2. lia.
  - simpl. unfold ok.
    destruct ((200 <=? status response) && (status response <=? 299)) eqn:E;
      [|unfold calculate_disabled; simpl; apply orb_true_r].
    apply andb_true_iff in E as [E1 E2]. apply Z.leb_le in E1, E2. lia.
  - simpl. destruct (is_failed_to_fetch err); reflexivity.
  - simpl. destruct (is_failed_to_fetch err); discriminate.
  - simpl. destruct (is_failed_to_fetch err); discriminate.
  - unfold calculate_disabled. simpl. apply orb_true_r.
Qed.

Lemma health_probe_outcomes_witness :
  let s := setError "stale" (initialState None fallbackUrl_localhost) in
  let reply st :=
    Fulfilled {| status := st;
                 json := inl {| Error.name := "SyntaxError";
                                Error.message := "Unexpected end of JSON input" |} |} in
  let refused :=
    Rejected {| Error.name := "TypeError";
                Error.message := "Failed to fetch" |} in
  (connectionStatus (checkApiHealth_settled (reply 204) s) = connected /\
   error (checkApiHealth_settled (reply 204) s) = "") /\
  (connectionStatus (checkApiHealth_settled (reply 503) s) = disconnected /\
   error (checkApiHealth_settled (reply 503) s) = msg_health_not_ok) /\
  (connectionStatus (checkApiHealth_settled refused s) = disconnected /\
   error (checkApiHealth_settled refused s) = msg_health_cors).
Proof.
  intros s reply refused.
  destruct (health_probe_outcomes s) as (H2xx & Hother & Hrejected).
  split; [|split].
  - apply (H2xx {| status := 204; json := inl _ |}). simpl. lia.
  - destruct (Hother {| status := 503; json := inl {| Error.name := "SyntaxError";
                          Error.message := "Unexpected end of JSON input" |} |})
      as (Hstatus & Herror & _); [simpl; lia|].
    split; [exact Hstatus | exact Herror].
  - destruct (Hrejected {| Error.name := "TypeError";
                           Error.message := "Failed to fetch" |})
      as (Hstatus & Herror & _).
    split; [exact Hstatus | exact Herror].
Defined.

(** ** The calculate exchange *)

Lemma calculateCoins_started s s1 request :
  calculateCoins s = (s1, Some request) ->
  s1 = setResult None (setError "" (setLoading true s)).
Proof.
  intros H. destruct (calculateCoins_cases s) as [(m & _ & Hm) | (r & Hr & _)].
  - rewrite Hm in H. discriminate H.
  - rewrite Hr in H. now inversion H.
Qed.

Lemma not_2xx_not_ok st body :
  ~ 200 <= st <= 299 -> ok {| status := st; json := body |} = false.
Proof.
  intros H. unfold ok. simpl.
  destruct ((200 <=? st) && (st <=? 299)) eqn:E; [|reflexivity].
  apply andb_true_iff in E as [E1 E2]. apply Z.leb_le in E1, E2. lia.
Qed.

Lemma is_2xx_ok st body :
  200 <= st <= 299 -> ok {| status := st; json := body |} = true.
Proof.
  intros H. unfold ok. simpl.
  apply andb_true_iff. split; apply Z.leb_le; lia.
Qed.

Lemma or_else_not_empty a b : b <> "" -> or_else a b <> "".
Proof. intros Hb. destruct a as [[|c t]|]; simpl; auto. discriminate. Qed.

(** C5, as the specification words it, fails: a 400 answer whose
    [ServiceError] carries the empty string as its message does not leave
    that message in the error state; the generic text is shown instead. *)
Lemma empty_message_is_not_kept_verbatim :
  let s := setAmount "0.41"
             (selectAllDenominations (initialState None fallbackUrl_localhost)) in
  let e := {| ErrorResponse.error := Some "invalid_amount";
              ErrorResponse.message := Some "" |} in
  let s2 := calculateCoins_settled
              (Fulfilled {| status := 400; json := inr (JError e) |})
              (fst (calculateCoins s)) in
  snd (calculateCoins s) <> None /\
  ErrorResponse.message e = Some "" /\
  error s2 = msg_calculate_fallback /\
  Some (error s2) <> ErrorResponse.message e.
Proof. vm_compute. repeat split; discriminate. Qed.

(** C5, amended: after a submission that passed validation, a non-2xx
    answer whose body is a [ServiceError] puts the error's message, verbatim,
    in the error state when the message is present and not empty, and the
    generic text when it is absent or empty; the result stays none, and the
    page shows that one error text and no result. *)
Theorem application_error_is_surfaced
    (formatCurrency : number -> string) s s1 request st e :
  calculateCoins s = (s1, Some request) ->
  ~ 200 <= st <= 299 ->
  let s2 := calculateCoins_settled
              (Fulfilled {| status := st; json := inr (JError e) |}) s1 in
  (forall m, ErrorResponse.message e = Some m -> m <> "" -> error s2 = m) /\
  (ErrorResponse.message e = None \/ ErrorResponse.message e = Some "" ->
   error s2 = msg_calculate_fallback) /\
  result s2 = None /\ loading s2 = false /\
  exists view,
    render formatCurrency s2 = Some view /\
    error_box view = Some (error s2) /\ result_box view = None.
Proof.
  intros Hstart Hstatus s2.
  apply calculateCoins_started in Hstart. subst s1.
  assert (Herror : error s2 = or_else (ErrorResponse.message e)
                                      msg_calculate_fallback).
  { unfold s2, calculateCoins_settled.
    rewrite (not_2xx_not_ok _ _ Hstatus). reflexivity. }
  assert (Hresult : result s2 = None).
  { unfold s2, calculateCoins_settled.
    rewrite (not_2xx_not_ok _ _ Hstatus). reflexivity. }
  assert (Hloading : loading s2 = false) by reflexivity.
  clearbody s2.
  split; [|split; [|split; [|split]]].
  - intros m Hm Hne. rewrite Herror, Hm.
    destruct m; [contradiction | reflexivity].
  - intros [Hm | Hm]; rewrite Herror, Hm; reflexivity.
  - exact Hresult.
  - exact Hloading.
  - unfold render. rewrite Hresult. eexists. split; [reflexivity|].
    split; [|reflexivity]. cbn [error_box].
    assert (Hne : error s2 <> "").
    { rewrite Herror. apply or_else_not_empty. discriminate. }
    destruct (error s2); [contradiction | reflexivity].
Qed.

Lemma application_error_is_surfaced_witness :
  let s := setAmount "0.41"
             (selectAllDenominations (initialState None fallbackUrl_localhost)) in
  let e := {| ErrorResponse.error := Some "invalid_amount";
              ErrorResponse.message := Some "Amount must be positive" |} in
  let s2 := calculateCoins_settled
              (Fulfilled {| status := 400; json := inr (JError e) |})
              (fst (calculateCoins s)) in
  error s2 = "Amount must be positive" /\ result s2 = None /\
  exists view,
    render (fun _ => "") s2 = Some view /\
    error_box view = Some "Amount must be positive" /\
    result_box view = None.
Proof.
  intros s e s2.
  destruct (application_error_is_surfaced (fun _ => "") s (fst (calculateCoins s))
              (calculate_request fallbackUrl_localhost
                 {| CCRequest.amount := parseFloat "0.41";
                    CCRequest.denominations := catalog |})
              400 e) as (Hmsg & _ & Hresult & _ & view & Hview & Hbox & Hnone).
  - vm_compute. reflexivity.
  - lia.
  - assert (Herror : error s2 = "Amount must be positive")
      by (apply Hmsg; [reflexivity | discriminate]).
    split; [exact Herror | split; [exact Hresult|]].
    exists view. split; [exact Hview | split; [|exact Hnone]].
    fold s2 in Hbox. rewrite Hbox, Herror. reflexivity.
Defined.

Lemma calculateCoins_settled_result st r s :
  200 <= st <= 299 ->
  calculateCoins_settled
    (Fulfilled {| status := st; json := inr (JResult r) |}) s
  = setLoading false (setResult (Some (JResult r)) s).
Proof.
  intros Hstatus. unfold calculateCoins_settled.
  now rewrite (is_2xx_ok _ _ Hstatus).
Qed.

(** Between a submission and its answer, as long as no probe fails, the
    error stays empty and the request stays pending. *)
Lemma quiet_step_keeps_error_empty a ev :
  Exchange.quiet ev ->
  error (Session.state a) = "" -> loading (Session.state a) = true ->
  (1 <= Session.pendingCalculate a)%nat ->
  error (Session.state (Session.step a ev)) = "" /\
  loading (Session.state (Session.step a ev)) = true /\
  (1 <= Session.pendingCalculate (Session.step a ev))%nat.
Proof.
  intros Hquiet Herror Hloading Hpending.
  destruct ev as [v|v| |d checked| | | | |o|o]; cbn [Session.step].
  - now repeat split.
  - destruct (String.eqb v (apiUrl (Session.state a))); now repeat split.
  - now repeat split.
  - destruct checked; now repeat split.
  - now repeat split.
  - now repeat split.
  - unfold calculate_disabled. rewrite Hloading. now repeat split.
  - now repeat split.
  - destruct o as [response|err]; [|contradiction].
    simpl in Hquiet.
    destruct (Session.pendingHealth a); [now repeat split|].
    simpl. rewrite Hquiet. simpl. now repeat split.
  - contradiction.
Qed.

Lemma quiet_run_keeps_error_empty between :
  Forall Exchange.quiet between ->
  forall a,
    error (Session.state a) = "" -> loading (Session.state a) = true ->
    (1 <= Session.pendingCalculate a)%nat ->
    error (Session.state (Session.run a between)) = "" /\
    loading (Session.state (Session.run a between)) = true /\
    (1 <= Session.pendingCalculate (Session.run a between))%nat.
Proof.
  induction 1 as [|ev between Hev _ IH]; intros a Herror Hloading Hpending.
  - now repeat split.
  - destruct (quiet_step_keeps_error_empty a ev Hev Herror Hloading Hpending)
      as (H1 & H2 & H3).
    simpl. now apply IH.
Qed.

(** C6, as the specification words it, fails: the error is emptied when the
    request is submitted, and a 2xx answer only stores the result, so a
    health probe that fails between the two leaves its message on the page
    next to the result. *)
Lemma probe_failure_outlives_the_result :
  let r := {| CCResponse.coins :=
                [ {| CoinInfo.denomination := dec 20 (-2);
                     CoinInfo.count := of_Z 2 |};
                  {| CoinInfo.denomination := dec 1 (-2);
                     CoinInfo.count := of_Z 1 |} ];
              CCResponse.totalCoins := of_Z 3 |} in
  let no_body := inl {| Error.name := "SyntaxError";
                        Error.message := "Unexpected end of JSON input" |} in
  let a :=
    Session.run (Session.mount None fallbackUrl_localhost)
      [Session.AmountChanged "0.41"; Session.SelectAllClicked;
       Session.CalculateClicked;
       Session.HealthSettled (Fulfilled {| status := 503; json := no_body |});
       Session.CalculateSettled
         (Fulfilled {| status := 200; json := inr (JResult r) |})] in
  result (Session.state a) = Some (JResult r) /\
  error (Session.state a) = msg_health_not_ok /\
  error (Session.state a) <> "" /\
  exists view shown,
    render (fun _ => "") (Session.state a) = Some view /\
    result_box view = Some shown /\
    error_box view = Some msg_health_not_ok.
Proof.
  vm_compute. repeat split; try discriminate.
  eexists. eexists. repeat split.
Qed.

(** C6, amended: whatever state it arrives in, a 2xx answer whose body is a
    [ChangeResult] becomes the result state and leaves the error state as
    it finds it.  The error was emptied when the request was submitted, so
    when no health probe has failed between the submission of a valid form
    and the answer, the page shows no error and the result view of that
    body: its total is [totalCoins] and its rows carry, in order, the
    denominations and counts of [coins]. *)
Theorem result_is_displayed_unless_a_probe_failed
    (formatCurrency : number -> string) (a : Session.t)
    (between : list Session.Event) (st : Z) (r : CCResponse.t) :
  calculate_disabled (Session.state a) = false ->
  ~ Validation.rejected (Session.state a) ->
  Forall Exchange.quiet between ->
  200 <= st <= 299 ->
  let answer := Fulfilled {| status := st; json := inr (JResult r) |} in
  let a' :=
    Session.step
      (Session.run (Session.step a Session.CalculateClicked) between)
      (Session.CalculateSettled answer) in
  (forall s,
     result (calculateCoins_settled answer s) = Some (JResult r) /\
     error (calculateCoins_settled answer s) = error s /\
     loading (calculateCoins_settled answer s) = false) /\
  result (Session.state a') = Some (JResult r) /\
  error (Session.state a') = "" /\
  loading (Session.state a') = false /\
  exists view shown,
    render formatCurrency (Session.state a') = Some view /\
    error_box view = None /\ result_box view = Some shown /\
    shown = ResultDisplay.ResultDisplay formatCurrency r /\
    ResultDisplay.total shown = CCResponse.totalCoins r /\
    map (fun row => (ResultDisplay.row_denomination row,
                     ResultDisplay.row_count row))
        (ResultDisplay.rows shown)
      = map (fun coin => (CoinInfo.denomination coin, CoinInfo.count coin))
            (CCResponse.coins r).
Proof.
  intros Henabled Hvalid Hquiet Hstatus answer a'.
  assert (Hany : forall s,
            result (calculateCoins_settled answer s) = Some (JResult r) /\
            error (calculateCoins_settled answer s) = error s /\
            loading (calculateCoins_settled answer s) = false).
  { intros s. unfold answer.
    rewrite (calculateCoins_settled_result st r s Hstatus).
    repeat split. }
  split; [exact Hany|].
  set (a1 := Session.step a Session.CalculateClicked) in *.
  assert (Hsubmitted : error (Session.state a1) = "" /\
                       loading (Session.state a1) = true /\
                       (1 <= Session.pendingCalculate a1)%nat).
  { unfold a1. cbn [Session.step]. rewrite Henabled.
    unfold Session.run_calculateCoins.
    rewrite (not_rejected_calculateCoins _ Hvalid).
    cbn [Session.state Session.pendingCalculate].
    repeat split. lia. }
  destruct Hsubmitted as (Herror & Hloading & Hpending).
  destruct (quiet_run_keeps_error_empty between Hquiet a1 Herror Hloading
              Hpending) as (Herror2 & _ & Hpending2).
  set (a2 := Session.run a1 between) in *.
  assert (Hstate : Session.state a'
                   = calculateCoins_settled answer (Session.state a2)).
  { unfold a'. cbn [Session.step].
    destruct (Session.pendingCalculate a2); [lia | reflexivity]. }
  destruct (Hany (Session.state a2)) as (Hresult & Herr & Hload).
  rewrite Hstate.
  split; [exact Hresult | split; [now rewrite Herr | split; [exact Hload|]]].
  unfold render. rewrite Hresult, Herr, Herror2.
  eexists. eexists.
  split; [reflexivity | split; [reflexivity | split; [reflexivity|]]].
  split; [reflexivity | split; [reflexivity|]].
  simpl. rewrite map_map. reflexivity.
Qed.

Lemma result_is_displayed_unless_a_probe_failed_witness :
  let a :=
    Session.run (Session.mount None fallbackUrl_localhost)
      [Session.AmountChanged "0.41";
       Session.DenominationChanged (dec 100 (-2)) true;
       Session.DenominationChanged (dec 50 (-2)) true;
       Session.DenominationChanged (dec 20 (-2)) true;
       Session.DenominationChanged (dec 10 (-2)) true;
       Session.DenominationChanged (dec 5 (-2)) true;
       Session.DenominationChanged (dec 1 (-2)) true] in
  let healthy :=
    Session.HealthSettled
      (Fulfilled {| status := 200;
                    json := inl {| Error.name := "SyntaxError";
                                   Error.message := "" |} |}) in
  let r := {| CCResponse.coins :=
                [ {| CoinInfo.denomination := dec 20 (-2);
                     CoinInfo.count := of_Z 2 |};
                  {| CoinInfo.denomination := dec 1 (-2);
                     CoinInfo.count := of_Z 1 |} ];
              CCResponse.totalCoins := of_Z 3 |} in
  let a' :=
    Session.step
      (Session.run (Session.step a Session.CalculateClicked) [healthy])
      (Session.CalculateSettled
         (Fulfilled {| status := 200; json := inr (JResult r) |})) in
  selectedDenominations (Session.state a)
    = [dec 1 (-2); dec 5 (-2); dec 10 (-2); dec 20 (-2); dec 50 (-2);
       dec 100 (-2)] /\
  exists view shown,
    render (fun _ => "") (Session.state a') = Some view /\
    error_box view = None /\ result_box view = Some shown /\
    ResultDisplay.total shown = of_Z 3 /\
    map (fun row => (ResultDisplay.row_denomination row,
                     ResultDisplay.row_count row,
                     ResultDisplay.row_unit row))
        (ResultDisplay.rows shown)
      = [ (dec 20 (-2), of_Z 2, "coins"); (dec 1 (-2), of_Z 1, "coin") ].
Proof.
  intros a healthy r a'. split; [reflexivity|].
  assert (Henabled : calculate_disabled (Session.state a) = false)
    by reflexivity.
  assert (Hvalid : ~ Validation.rejected (Session.state a)).
  { intros [H | [H | [H | [H | H]]]]; vm_compute in H; discriminate H. }
  assert (Hquiet : Forall Exchange.quiet [healthy]).
  { constructor; [reflexivity | constructor]. }
  assert (Hstatus : 200 <= 200 <= 299) by lia.
  destruct (result_is_displayed_unless_a_probe_failed (fun _ => "") a
              [healthy] 200 r Henabled Hvalid Hquiet Hstatus)
    as (_ & _ & _ & _ & view & shown & Hview & Herr & Hbox & Hshown & Htotal & _).
  exists view, shown.
  split; [exact Hview | split; [exact Herr | split; [exact Hbox|]]].
  rewrite Hshown. vm_compute. split; reflexivity.
Defined.

(** ** One calculate request at a time *)

(** A calculate request is pending exactly while [loading] is set. *)
Lemma pending_matches_loading_step a ev :
  Session.pendingCalculate a = (if loading (Session.state a) then 1 else 0)%nat ->
  Session.pendingCalculate (Session.step a ev)
    = (if loading (Session.state (Session.step a ev)) then 1 else 0)%nat.
Proof.
  intros Hinv. destruct ev; simpl; try exact Hinv.
  - destruct (String.eqb v (apiUrl (Session.state a))); exact Hinv.
  - destruct checked; exact Hinv.
  - unfold calculate_disabled.
    destruct (loading (Session.state a)) eqn:Hloading; simpl.
    + rewrite Hloading. exact Hinv.
    + destruct (connectionStatus (Session.state a)); simpl;
        try (rewrite Hloading; exact Hinv);
        unfold Session.run_calculateCoins;
        destruct (calculateCoins_cases (Session.state a))
          as [(m & _ & Hm) | (r & Hr & _)];
        try (rewrite Hm; simpl; rewrite Hloading; exact Hinv);
        rewrite Hr; simpl; rewrite Hinv; reflexivity.
  - destruct (Session.pendingHealth a); simpl; [exact Hinv|].
    destruct o as [response|err]; simpl.
    + destruct (negb (ok response)); exact Hinv.
    + destruct (is_failed_to_fetch err); exact Hinv.
  - destruct (Session.pendingCalculate a) as [|n] eqn:Hpending;
      simpl; [congruence|].
    destruct (loading (Session.state a)); inversion Hinv. reflexivity.
Qed.

Lemma pending_matches_loading_run events :
  forall a,
    Session.pendingCalculate a
      = (if loading (Session.state a) then 1 else 0)%nat ->
    Session.pendingCalculate (Session.run a events)
      = (if loading (Session.state (Session.run a events)) then 1 else 0)%nat.
Proof.
  induction events as [|ev events IH]; intros a Hinv; simpl.
  - exact Hinv.
  - apply IH, pending_matches_loading_step, Hinv.
Qed.

(** C7: in every state the mounted component reaches, at most one
    calculate request is pending, and one is pending exactly when [loading]
    is set; the Calculate button is disabled exactly when [loading] is set
    or the connection state is disconnected, and in those states a click
    on it changes nothing, so no request is started. *)
Theorem one_calculate_request_at_a_time env fallback events :
  let a := Session.run (Session.mount env fallback) events in
  (Session.pendingCalculate a <= 1)%nat /\
  (Session.pendingCalculate a = 1%nat <-> loading (Session.state a) = true) /\
  (calculate_disabled (Session.state a) = true <->
   loading (Session.state a) = true \/
   connectionStatus (Session.state a) = disconnected) /\
  (calculate_disabled (Session.state a) = true ->
   Session.step a Session.CalculateClicked = a) /\
  (Session.network (Session.step a Session.CalculateClicked)
     <> Session.network a ->
   loading (Session.state a) = false /\
   connectionStatus (Session.state a) <> disconnected /\
   Session.pendingCalculate a = 0%nat).
Proof.
  intros a.
  assert (Hinv : Session.pendingCalculate a
                 = (if loading (Session.state a) then 1 else 0)%nat).
  { apply pending_matches_loading_run. reflexivity. }
  clearbody a.
  assert (Hdisabled : calculate_disabled (Session.state a) = true <->
                      loading (Session.state a) = true \/
                      connectionStatus (Session.state a) = disconnected).
  { unfold calculate_disabled. rewrite orb_true_iff.
    destruct (connectionStatus (Session.state a));
      intuition discriminate. }
  split; [|split; [|split; [|split]]].
  - rewrite Hinv. destruct (loading (Session.state a)); lia.
  - rewrite Hinv. destruct (loading (Session.state a));
      split; intros H; (reflexivity || discriminate H).
  - exact Hdisabled.
  - intros H. simpl. now rewrite H.
  - intros Hnetwork.
    destruct (calculate_disabled (Session.state a)) eqn:E.
    + exfalso. apply Hnetwork. simpl. now rewrite E.
    + assert (Hloading : loading (Session.state a) = false).
      { unfold calculate_disabled in E.
        now apply orb_false_iff in E as [E _]. }
      split; [exact Hloading | split].
      * intros Hd. assert (Habsurd : false = true)
          by (apply Hdisabled; now right). discriminate Habsurd.
      * now rewrite Hinv, Hloading.
Qed.

Lemma one_calculate_request_at_a_time_witness :
  let a :=
    Session.run (Session.mount None fallbackUrl_localhost)
      [Session.AmountChanged "0.41"; Session.SelectAllClicked;
       Session.CalculateClicked; Session.CalculateClicked;
       Session.CalculateClicked] in
  (Session.pendingCalculate a <= 1)%nat /\
  loading (Session.state a) = true /\
  List.length (Session.network a) = 2%nat /\
  Session.step a Session.CalculateClicked = a.
Proof.
  intros a.
  destruct (one_calculate_request_at_a_time None fallbackUrl_localhost
              [Session.AmountChanged "0.41"; Session.SelectAllClicked;
               Session.CalculateClicked; Session.CalculateClicked;
               Session.CalculateClicked])
    as (Hle & _ & _ & Hnoop & _).
  split; [exact Hle | split; [reflexivity | split; [reflexivity|]]].
  apply Hnoop. reflexivity.
Defined.

(** ** The base URL *)

(** C8: a change of the base URL starts exactly one health probe, for the
    new URL, and leaves the connection state at checking, whatever it was;
    setting the connection state to checking is what [checkApiHealth] does
    before it calls [fetch]. *)
Theorem api_url_change_probes_once (a : Session.t) (v : string) :
  v <> apiUrl (Session.state a) ->
  let a' := Session.step a (Session.ApiUrlChanged v) in
  Session.network a' = (Session.network a ++ [health_request v])%list /\
  Session.pendingHealth a' = S (Session.pendingHealth a) /\
  Session.pendingCalculate a' = Session.pendingCalculate a /\
  apiUrl (Session.state a') = v /\
  connectionStatus (Session.state a') = checking /\
  (forall s, fst (checkApiHealth s) = setConnectionStatus checking s).
Proof.
  intros Hchanged a'. unfold a'. simpl.
  destruct (String.eqb v (apiUrl (Session.state a))) eqn:E.
  - apply String.eqb_eq in E. contradiction.
  - simpl. repeat split.
Qed.

Lemma api_url_change_probes_once_witness :
  let a := Session.run (Session.mount None fallbackUrl_localhost)
             [Session.HealthSettled
                (Fulfilled {| status := 200;
                              json := inl {| Error.name := "SyntaxError";
                                             Error.message := "" |} |})] in
  connectionStatus (Session.state a) = connected /\
  connectionStatus
    (Session.state (Session.step a (Session.ApiUrlChanged fallbackUrl_deployed)))
    = checking /\
  Session.network (Session.step a (Session.ApiUrlChanged fallbackUrl_deployed))
    = [health_request fallbackUrl_localhost;
       health_request fallbackUrl_deployed].
Proof.
  intros a.
  destruct (api_url_change_probes_once a fallbackUrl_deployed)
    as (Hnetwork & _ & _ & _ & Hstatus & _).
  - vm_compute. discriminate.
  - split; [reflexivity | split; [exact Hstatus | exact Hnetwork]].
Defined.

(** ** Clear All and the frame of a rejected submission *)

(** C9: [clearForm] empties the amount text, the selection, the result and
    the error, and leaves the base URL, the connection state and the loading
    flag (and the catalog) as they were. *)
Theorem clearForm_frame (s : State) :
  amount (clearForm s) = "" /\
  selectedDenominations (clearForm s) = [] /\
  result (clearForm s) = None /\
  error (clearForm s) = "" /\
  apiUrl (clearForm s) = apiUrl s /\
  connectionStatus (clearForm s) = connectionStatus s /\
  loading (clearForm s) = loading s /\
  validDenominations (clearForm s) = validDenominations s.
Proof. repeat split. Qed.

(** C10: when local validation fails (the amount text is absent, does not
    parse to a number, is negative or above 10000, or nothing is selected),
    [calculateCoins] returns after changing the error state only, to a
    validation message: the result, the amount text, the selection and the
    loading flag are as before, so an earlier result is still rendered,
    next to the message.  When validation passes, the state it leaves
    before [fetch] settles has the result already at none, whatever was
    displayed before, and the request is on its way. *)
Theorem calculateCoins_frame (formatCurrency : number -> string) (s : State) :
  (Validation.rejected s ->
   let s' := fst (calculateCoins s) in
   snd (calculateCoins s) = None /\
   (exists m, Validation.is_validation_message m /\ s' = setError m s) /\
   result s' = result s /\ amount s' = amount s /\
   selectedDenominations s' = selectedDenominations s /\
   loading s' = loading s /\
   apiUrl s' = apiUrl s /\ connectionStatus s' = connectionStatus s /\
   (forall r, result s = Some (JResult r) ->
      exists view,
        render formatCurrency s' = Some view /\
        error_box view = Some (error s') /\
        result_box view
          = Some (ResultDisplay.ResultDisplay formatCurrency r))) /\
  (~ Validation.rejected s ->
   let s' := fst (calculateCoins s) in
   (exists request, snd (calculateCoins s) = Some request) /\
   result s' = None /\ loading s' = true /\ error s' = "" /\
   amount s' = amount s /\
   selectedDenominations s' = selectedDenominations s /\
   exists view,
     render formatCurrency s' = Some view /\
     result_box view = None /\ error_box view = None).
Proof.
  split.
  - intros Hrejected.
    destruct (rejected_calculateCoins s Hrejected) as (m & Hm & Hcalc).
    rewrite Hcalc. cbn [fst snd].
    split; [reflexivity | split; [exists m; now split|]].
    repeat (split; [reflexivity|]).
    intros r Hr. unfold render. simpl. rewrite Hr.
    eexists. split; [reflexivity|]. split; [|reflexivity]. simpl.
    pose proof (validation_message_not_empty m Hm) as Hne.
    destruct m; [contradiction | reflexivity].
  - intros Hvalid. rewrite (not_rejected_calculateCoins s Hvalid).
    cbn [fst snd].
    split; [eexists; reflexivity|].
    repeat (split; [reflexivity|]).
    eexists. split; [reflexivity|]. split; reflexivity.
Qed.

Lemma calculateCoins_frame_witness :
  let r := {| CCResponse.coins :=
                [ {| CoinInfo.denomination := dec 20 (-2);
                     CoinInfo.count := of_Z 2 |} ];
              CCResponse.totalCoins := of_Z 2 |} in
  let shown s :=
    setResult (Some (JResult r))
      (setAmount s
         (selectAllDenominations (initialState None fallbackUrl_localhost))) in
  (result (fst (calculateCoins (shown "-1"))) = Some (JResult r) /\
   error (fst (calculateCoins (shown "-1"))) = msg_invalid_amount) /\
  (result (shown "0.41") = Some (JResult r) /\
   result (fst (calculateCoins (shown "0.41"))) = None /\
   exists request, snd (calculateCoins (shown "0.41")) = Some request).
Proof.
  intros r shown. split.
  - destruct (calculateCoins_frame (fun _ => "") (shown "-1"))
      as [Hrejected _].
    destruct Hrejected as (_ & _ & Hresult & _).
    + right. right. left. vm_compute. reflexivity.
    + split; [exact Hresult | vm_compute; reflexivity].
  - destruct (calculateCoins_frame (fun _ => "") (shown "0.41"))
      as [_ Hvalid].
    destruct Hvalid as (Hrequest & Hresult & _).
    + intros [H | [H | [H | [H | H]]]]; vm_compute in H; discriminate H.
    + split; [reflexivity | split; [exact Hresult | exact Hrequest]].
Defined.

(** * More of the code *)

(** ** What [calculateCoins] accepts *)

Lemma le_not_NaN a b : le a b = true -> isNaN a = false /\ isNaN b = false.
Proof.
  unfold le, SFleb. destruct a, b; simpl; try discriminate; auto.
Qed.

Lemma le_not_lt a b : le a b = true -> lt b a = false.
Proof.
  unfold le, lt, SFleb, SFltb. rewrite (SFcompare_antisym a b).
  destruct (SFcompare a b) as [[| |]|]; simpl; auto; discriminate.
Qed.

(** X1: [calculateCoins] hands a request to [fetch] exactly when the amount
    text is not empty, a denomination is selected and the parsed amount [a]
    satisfies [0 <= a <= 10000], both bounds included; the request is then
    the POST for the current base URL carrying [a] and the selection.  A
    rejected submission gets the missing-input message when the text or the
    selection is empty, whatever the text parses to, and the invalid-amount
    message otherwise. *)
Theorem calculateCoins_decision (s : State) :
  let a := parseFloat (amount s) in
  let accepted :=
    amount s <> "" /\ selectedDenominations s <> [] /\
    le (of_Z 0) a = true /\ le a (of_Z 10000) = true in
  (accepted <->
   calculateCoins s
     = (setResult None (setError "" (setLoading true s)),
        Some (calculate_request (apiUrl s)
                {| CCRequest.amount := a;
                   CCRequest.denominations := selectedDenominations s |}))) /\
  (accepted <-> exists request, snd (calculateCoins s) = Some request) /\
  (amount s = "" \/ selectedDenominations s = [] <->
   calculateCoins s = (setError msg_missing_input s, None)) /\
  (amount s <> "" /\ selectedDenominations s <> [] /\
   ~ (le (of_Z 0) a = true /\ le a (of_Z 10000) = true) <->
   calculateCoins s = (setError msg_invalid_amount s, None)).
Proof.
  intros a accepted. subst accepted.
  assert (Hmissing :
    String.eqb (amount s) ""
    || (List.length (selectedDenominations s) =? 0)%nat = true
    <-> amount s = "" \/ selectedDenominations s = []).
  { rewrite orb_true_iff, String.eqb_eq, Nat.eqb_eq.
    split; intros [H|H]; auto; right.
    - now apply length_zero_iff_nil.
    - now rewrite H. }
  assert (Hrange :
    isNaN a || lt a (of_Z 0) || gt a (of_Z 10000) = false
    <-> le (of_Z 0) a = true /\ le a (of_Z 10000) = true).
  { rewrite !orb_false_iff. split.
    - intros [[Hnan Hlt] Hgt]. split; apply not_lt_le; auto.
    - intros [Hlo Hhi]. repeat split.
      + apply (le_not_NaN _ _ Hhi).
      + apply le_not_lt, Hlo.
      + apply le_not_lt, Hhi. }
  unfold calculateCoins. fold a.
  destruct (String.eqb (amount s) ""
            || (List.length (selectedDenominations s) =? 0)%nat) eqn:E1.
  - assert (H1 : amount s = "" \/ selectedDenominations s = [])
      by (now apply Hmissing).
    split; [|split; [|split]]; split; intros H.
    + exfalso. tauto.
    + discriminate H.
    + exfalso. tauto.
    + destruct H as [request H]. discriminate H.
    + reflexivity.
    + exact H1.
    + exfalso. tauto.
    + exfalso. now inversion H.
  - assert (H1 : ~ (amount s = "" \/ selectedDenominations s = [])).
    { intros H. apply Hmissing in H. congruence. }
    destruct (isNaN a || lt a (of_Z 0) || gt a (of_Z 10000)) eqn:E2.
    + assert (H2 : ~ (le (of_Z 0) a = true /\ le a (of_Z 10000) = true)).
      { intros H. apply Hrange in H. congruence. }
      split; [|split; [|split]]; split; intros H.
      * exfalso. tauto.
      * discriminate H.
      * exfalso. tauto.
      * destruct H as [request H]. discriminate H.
      * exfalso. tauto.
      * exfalso. now inversion H.
      * reflexivity.
      * tauto.
    + assert (H2 : le (of_Z 0) a = true /\ le a (of_Z 10000) = true)
        by (now apply Hrange).
      split; [|split; [|split]]; split; intros H.
      * reflexivity.
      * tauto.
      * eexists. reflexivity.
      * tauto.
      * exfalso. tauto.
      * discriminate H.
      * exfalso. tauto.
      * discriminate H.
Qed.

Lemma calculateCoins_decision_witness :
  let s := setAmount "10000"
             (handleDenominationChange (dec 5 (-2)) true
                (initialState None fallbackUrl_localhost)) in
  exists request, snd (calculateCoins s) = Some request.
Proof.
  intros s. apply (calculateCoins_decision s).
  repeat split; try discriminate; vm_compute; reflexivity.
Defined.

(** ** How a calculate exchange can end *)

Lemma prefix_app search s :
  prefix search s = true <-> exists rest, s = search ++ rest.
Proof.
  revert s. induction search as [|c search IH]; intros s.
  - split; [intros _; now exists s | intros _; destruct s; reflexivity].
  - destruct s as [|c' s]; simpl.
    + split; [discriminate | intros [rest H]; discriminate H].
    + destruct (ascii_dec c c') as [->|Hne].
      * rewrite IH. split; intros [rest H]; exists rest.
        -- now rewrite H.
        -- now inversion H.
      * split; [discriminate|]. intros [rest H].
        inversion H as [[Hc Hs]]. symmetry in Hc. contradiction.
Qed.

Lemma includes_substring s search :
  includes s search = true <->
  exists before rest, s = before ++ search ++ rest.
Proof.
  induction s as [|c s IH].
  - cbn [includes]. rewrite orb_false_r, prefix_app. split.
    + intros [rest H]. exists "", rest. exact H.
    + intros [[|c before] [rest H]]; [now exists rest | discriminate H].
  - cbn [includes]. rewrite orb_true_iff, prefix_app, IH. split.
    + intros [[rest H] | (before & rest & H)].
      * exists "", rest. exact H.
      * exists (String c before), rest. simpl. now rewrite H.
    + intros ([|c' before] & rest & H).
      * left. now exists rest.
      * right. exists before, rest. simpl in H. now inversion H.
Qed.

(** X2: a calculate exchange that reaches no JSON body (the [fetch] promise
    rejects, or [response.json()] rejects, whatever the status, 2xx
    included) ends with the CORS message when the error is a [TypeError]
    whose message contains "Failed to fetch" anywhere, and with the
    failed-to-connect message otherwise; it leaves the result as it was and
    resets the loading flag. *)
Theorem calculate_without_body (s : State) (err : Error.t) (st : Z) :
  let cors := Error.name err = "TypeError" /\
              exists before rest,
                Error.message err = before ++ "Failed to fetch" ++ rest in
  let expected s' :=
    (cors -> error s' = msg_calculate_cors) /\
    (~ cors -> error s' = msg_calculate_unreachable) /\
    error s' <> "" /\ result s' = result s /\ loading s' = false in
  expected (calculateCoins_settled (Rejected err) s) /\
  expected (calculateCoins_settled
              (Fulfilled {| status := st; json := inl err |}) s).
Proof.
  intros cors expected.
  assert (Hcors : is_failed_to_fetch err = true <-> cors).
  { unfold is_failed_to_fetch, cors.
    now rewrite andb_true_iff, String.eqb_eq, includes_substring. }
  assert (H : forall s',
             s' = setLoading false
                    (if is_failed_to_fetch err then setError msg_calculate_cors s
                     else setError msg_calculate_unreachable s) ->
             expected s').
  { intros s' ->. unfold expected.
    destruct (is_failed_to_fetch err); simpl.
    - repeat split; try discriminate; auto. intros Hn. exfalso. tauto.
    - repeat split; try discriminate; auto.
      intros Hc. apply Hcors in Hc. discriminate Hc. }
  split; apply H; reflexivity.
Qed.

Lemma calculate_without_body_witness :
  let s := initialState None fallbackUrl_localhost in
  let err := {| Error.name := "TypeError";
                Error.message := "NetworkError: Failed to fetch resource" |} in
  error (calculateCoins_settled (Rejected err) s) = msg_calculate_cors.
Proof.
  intros s err.
  destruct (calculate_without_body s err 0) as [(Hcors & _) _].
  apply Hcors. split; [reflexivity|].
  exists "NetworkError: ", " resource". reflexivity.
Defined.

(** X4: the settling of a calculate request never touches the amount text,
    the selection, the base URL or the connection state, and always resets
    the loading flag: afterwards the Calculate button is disabled exactly
    when the connection state is disconnected, so a failed calculate does
    not by itself block the next attempt. *)
Theorem calculate_settled_frame (o : Outcome) (s : State) :
  let s' := calculateCoins_settled o s in
  amount s' = amount s /\
  selectedDenominations s' = selectedDenominations s /\
  validDenominations s' = validDenominations s /\
  apiUrl s' = apiUrl s /\
  connectionStatus s' = connectionStatus s /\
  loading s' = false /\
  (calculate_disabled s' = true <-> connectionStatus s = disconnected).
Proof.
  assert (H : forall s1,
            amount s1 = amount s ->
            selectedDenominations s1 = selectedDenominations s ->
            validDenominations s1 = validDenominations s ->
            apiUrl s1 = apiUrl s ->
            connectionStatus s1 = connectionStatus s ->
            let s' := setLoading false s1 in
            amount s' = amount s /\
            selectedDenominations s' = selectedDenominations s /\
            validDenominations s' = validDenominations s /\
            apiUrl s' = apiUrl s /\
            connectionStatus s' = connectionStatus s /\
            loading s' = false /\
            (calculate_disabled s' = true <-> connectionStatus s = disconnected)).
  { intros s1 H1 H2 H3 H4 H5. simpl. repeat split; auto.
    - unfold calculate_disabled. simpl. rewrite H5.
      destruct (connectionStatus s); (reflexivity || discriminate).
    - intros Hd. unfold calculate_disabled. simpl. now rewrite H5, Hd. }
  unfold calculateCoins_settled.
  destruct o as [response|err].
  - destruct (json response) as [err|data].
    + destruct (is_failed_to_fetch err); apply H; reflexivity.
    + destruct (negb (ok response)); apply H; reflexivity.
  - destruct (is_failed_to_fetch err); apply H; reflexivity.
Qed.

(** X5: the settling of a health probe never touches the amount text, the
    selection, the result, the loading flag or the base URL; the error it
    leaves depends on the outcome alone, so a message shown before (of a
    validation or of a failed calculate) is replaced, by the empty text when
    the probe succeeds.  Starting a probe changes the connection state
    only. *)
Theorem health_probe_frame (o : Outcome) (s : State) :
  let s' := checkApiHealth_settled o s in
  amount s' = amount s /\
  selectedDenominations s' = selectedDenominations s /\
  validDenominations s' = validDenominations s /\
  result s' = result s /\ loading s' = loading s /\ apiUrl s' = apiUrl s /\
  (forall other : State,
     error s' = error (checkApiHealth_settled o other) /\
     connectionStatus s' = connectionStatus (checkApiHealth_settled o other)) /\
  fst (checkApiHealth s) = setConnectionStatus checking s /\
  error (fst (checkApiHealth s)) = error s.
Proof.
  destruct o as [response|err]; simpl.
  - destruct (negb (ok response)); repeat split.
  - destruct (is_failed_to_fetch err); repeat split.
Qed.

(** ** What the mounted component sends *)

Lemma health_request_is_probe P base :
  Wire.well_formed P (health_request base).
Proof.
  left. unfold Wire.is_health_probe. repeat split. now exists base.
Qed.

Lemma calculate_request_is_call (P : CCRequest.t -> Prop) base payload :
  P payload -> Wire.well_formed P (calculate_request base payload).
Proof.
  intros HP. right. unfold Wire.is_calculate_call. repeat split.
  - now exists base.
  - now exists payload.
Qed.

Lemma calculateCoins_keeps_selection s :
  selectedDenominations (fst (calculateCoins s)) = selectedDenominations s /\
  validDenominations (fst (calculateCoins s)) = validDenominations s.
Proof.
  destruct (calculateCoins_cases s) as [(m & _ & H) | (r & H & _)];
    rewrite H; split; reflexivity.
Qed.

Lemma checkApiHealth_settled_keeps_selection o s :
  selectedDenominations (checkApiHealth_settled o s) = selectedDenominations s /\
  validDenominations (checkApiHealth_settled o s) = validDenominations s.
Proof.
  destruct o as [response|err]; simpl.
  - destruct (negb (ok response)); split; reflexivity.
  - destruct (is_failed_to_fetch err); split; reflexivity.
Qed.

Lemma calculateCoins_settled_keeps_selection o s :
  selectedDenominations (calculateCoins_settled o s) = selectedDenominations s /\
  validDenominations (calculateCoins_settled o s) = validDenominations s.
Proof.
  unfold calculateCoins_settled. destruct o as [response|err].
  - destruct (json response) as [err|data].
    + destruct (is_failed_to_fetch err); split; reflexivity.
    + destruct (negb (ok response)); split; reflexivity.
  - destruct (is_failed_to_fetch err); split; reflexivity.
Qed.

(** What every step keeps, when [Q] is a property of the two lists of
    denominations that the selector handlers keep. *)
Section WireInvariant.

Variable P : CCRequest.t -> Prop.
Variable Q : State -> Prop.
Variable admitted : Session.Event -> Prop.

Hypothesis Q_lists : forall s s',
  selectedDenominations s' = selectedDenominations s ->
  validDenominations s' = validDenominations s -> Q s -> Q s'.
Hypothesis Q_cleared : forall s, Q s -> Q (clearForm s).
Hypothesis Q_toggle : forall s d checked,
  admitted (Session.DenominationChanged d checked) -> Q s ->
  Q (handleDenominationChange d checked s).
Hypothesis Q_select_all : forall s, Q s -> Q (selectAllDenominations s).
Hypothesis Q_clear_all : forall s, Q s -> Q (clearAllDenominations s).
Hypothesis P_issued : forall s payload,
  Q s -> Wire.in_bounds payload ->
  CCRequest.denominations payload = selectedDenominations s -> P payload.

Let invariant (a : Session.t) : Prop :=
  Q (Session.state a) /\ Forall (Wire.well_formed P) (Session.network a).

Lemma wire_invariant_step a ev :
  admitted ev -> invariant a -> invariant (Session.step a ev).
Proof.
  intros Hev [HQ Hnet]. unfold invariant.
  destruct ev; cbn [Session.step].
  - split; [|exact Hnet]. eapply Q_lists; [| |exact HQ]; reflexivity.
  - destruct (String.eqb v (apiUrl (Session.state a))); [now split|].
    split.
    + eapply Q_lists; [| |exact HQ]; reflexivity.
    + apply Forall_app. split; [exact Hnet|].
      constructor; [apply health_request_is_probe | constructor].
  - split.
    + eapply Q_lists; [| |exact HQ]; reflexivity.
    + apply Forall_app. split; [exact Hnet|].
      constructor; [apply health_request_is_probe | constructor].
  - split; [|exact Hnet]. now apply Q_toggle.
  - split; [|exact Hnet]. now apply Q_select_all.
  - split; [|exact Hnet]. now apply Q_clear_all.
  - destruct (calculate_disabled (Session.state a)); [now split|].
    unfold Session.run_calculateCoins.
    pose proof (calculateCoins_keeps_selection (Session.state a)) as [Hs Hv].
    destruct (calculateCoins (Session.state a)) as [s1 [request|]] eqn:Hcalc;
      simpl in Hs, Hv; simpl.
    + split; [now apply (Q_lists (Session.state a))|].
      apply Forall_app. split; [exact Hnet|].
      constructor; [|constructor].
      destruct (issued_request_is_valid _ _ _ Hcalc)
        as (payload & -> & _ & Hden & Hlo & Hhi & Hsel & _).
      apply calculate_request_is_call.
      apply (P_issued (Session.state a)); [exact HQ | | exact Hden].
      repeat split; auto. now rewrite Hden.
    + split; [now apply (Q_lists (Session.state a)) | exact Hnet].
  - split; [now apply Q_cleared | exact Hnet].
  - destruct (Session.pendingHealth a); [now split|].
    split; [|exact Hnet]. simpl.
    destruct (checkApiHealth_settled_keeps_selection o (Session.state a))
      as (Hs & Hv).
    now apply (Q_lists (Session.state a)).
  - destruct (Session.pendingCalculate a); [now split|].
    split; [|exact Hnet]. simpl.
    destruct (calculateCoins_settled_keeps_selection o (Session.state a))
      as (Hs & Hv).
    now apply (Q_lists (Session.state a)).
Qed.

Lemma wire_invariant_run events :
  Forall admitted events ->
  forall a, invariant a -> invariant (Session.run a events).
Proof.
  induction 1 as [|ev events Hev _ IH]; intros a Ha; simpl.
  - exact Ha.
  - apply IH, wire_invariant_step; assumption.
Qed.

Lemma wire_invariant_mount env fallback :
  Q (initialState env fallback) -> invariant (Session.mount env fallback).
Proof.
  intros HQ. split.
  - eapply Q_lists; [| |exact HQ]; reflexivity.
  - constructor; [apply health_request_is_probe | constructor].
Qed.

End WireInvariant.

(** X6: whatever the user does and however the promises settle, every call
    the mounted component has made to [fetch] is either a bodiless GET of
    the health path that declares [Accept: application/json], or a POST of
    the calculate path that declares [Content-Type] and [Accept] and
    carries an amount [a] with [0 <= a <= 10000] and at least one
    denomination; all in [cors] mode. *)
Theorem every_request_is_well_formed env fallback events :
  Forall (Wire.well_formed Wire.in_bounds)
         (Session.network (Session.run (Session.mount env fallback) events)).
Proof.
  refine (proj2 (wire_invariant_run Wire.in_bounds (fun _ => True)
                   (fun _ => True) _ _ _ _ _ _ events _ _ _)); auto.
  - now apply Forall_forall.
  - now apply (wire_invariant_mount Wire.in_bounds (fun _ => True)).
Qed.

(** X7: when the denominations handed to [onDenominationChange] are catalog
    values, every calculate request the mounted component has sent carries
    its denominations in ascending order, all drawn from the catalog. *)
Theorem every_request_is_sorted env fallback events :
  Forall Wire.from_selector events ->
  Forall (Wire.well_formed
            (fun payload => Wire.in_bounds payload /\
                            Wire.sorted_from_catalog payload))
         (Session.network (Session.run (Session.mount env fallback) events)).
Proof.
  intros Hevents.
  assert (Hlists : forall s s',
            selectedDenominations s' = selectedDenominations s ->
            validDenominations s' = validDenominations s ->
            Selector.invariant s -> Selector.invariant s').
  { intros s s' Hs Hv (H1 & H2 & H3). unfold Selector.invariant.
    now rewrite Hs, Hv. }
  refine (proj2 (wire_invariant_run _ Selector.invariant Wire.from_selector
                   Hlists _ _ _ _ _ events Hevents _ _)).
  - intros s (H1 & _ & _). repeat split; [exact H1 | constructor | constructor].
  - intros s d checked Hd Hs.
    destruct checked.
    + apply (selector_invariant_apply s (Selector.AddOne d)); assumption.
    + apply (selector_invariant_apply s (Selector.RemoveOne d)); assumption.
  - intros s Hs. now apply (selector_invariant_apply s Selector.SelectAll).
  - intros s Hs. now apply (selector_invariant_apply s Selector.ClearAll).
  - intros s payload (_ & Hin & Hasc) Hbounds Hden.
    split; [exact Hbounds|]. unfold Wire.sorted_from_catalog.
    now rewrite Hden.
  - apply (wire_invariant_mount _ Selector.invariant Hlists).
    apply selector_invariant_initial.
Qed.

Lemma every_request_is_sorted_witness :
  Forall (Wire.well_formed
            (fun payload => Wire.in_bounds payload /\
                            Wire.sorted_from_catalog payload))
    (Session.network
       (Session.run (Session.mount None fallbackUrl_localhost)
          [Session.DenominationChanged (dec 100 (-2)) true;
           Session.DenominationChanged (dec 5 (-2)) true;
           Session.AmountChanged "3.15";
           Session.CalculateClicked])).
Proof.
  apply every_request_is_sorted.
  repeat (apply Forall_cons || apply Forall_nil);
    vm_compute; auto 20 using eq_refl.
Defined.

(** ** Probes and requests are never cancelled *)

(** X8: a probe that settles after the base URL was changed still sets the
    connection state: with a probe pending, changing the URL and then one
    settling ends the checking phase with the state that outcome calls for
    (connected exactly for a fulfilled 2xx), while a probe is still
    pending. *)
Theorem late_probe_ends_checking (a : Session.t) (v : string) (o : Outcome) :
  v <> apiUrl (Session.state a) ->
  (1 <= Session.pendingHealth a)%nat ->
  let a' := Session.run a [Session.ApiUrlChanged v; Session.HealthSettled o] in
  apiUrl (Session.state a') = v /\
  (1 <= Session.pendingHealth a')%nat /\
  connectionStatus (Session.state a') <> checking /\
  (connectionStatus (Session.state a') = connected <->
   exists response, o = Fulfilled response /\ 200 <= status response <= 299).
Proof.
  intros Hchanged Hpending a'. unfold a'. simpl.
  destruct (String.eqb v (apiUrl (Session.state a))) eqn:E.
  { apply String.eqb_eq in E. contradiction. }
  simpl. destruct o as [response|err]; simpl.
  - unfold ok.
    destruct ((200 <=? status response) && (status response <=? 299)) eqn:Hok;
      simpl; (split; [reflexivity | split; [exact Hpending | split]]).
    + discriminate.
    + split; [|reflexivity]. intros _. exists response.
      split; [reflexivity|].
      apply andb_true_iff in Hok as [H1 H2]. apply Z.leb_le in H1, H2. lia.
    + discriminate.
    + split; [discriminate|]. intros [r [Hr Hrange]].
      inversion Hr; subst r.
      assert (Habsurd : (200 <=? status response) && (status response <=? 299)
                        = true)
        by (apply andb_true_iff; split; apply Z.leb_le; lia).
      congruence.
  - split; [|split; [exact Hpending | split]].
    + destruct (is_failed_to_fetch err); reflexivity.
    + discriminate.
    + split; [discriminate|]. intros [r [Hr _]]. discriminate Hr.
Qed.

Lemma late_probe_ends_checking_witness :
  let a := Session.mount None fallbackUrl_localhost in
  let o := Rejected {| Error.name := "TypeError";
                       Error.message := "Failed to fetch" |} in
  connectionStatus
    (Session.state
       (Session.run a [Session.ApiUrlChanged fallbackUrl_deployed;
                       Session.HealthSettled o]))
    <> checking.
Proof.
  intros a o.
  apply (late_probe_ends_checking a fallbackUrl_deployed o).
  - vm_compute. discriminate.
  - vm_compute. lia.
Defined.

(** X9: Clear All does not cancel a pending calculate request: when the
    request then settles with a 2xx [ChangeResult], that result is shown
    over the emptied form. *)
Theorem clear_does_not_cancel (a : Session.t) (st : Z) (r : CCResponse.t) :
  (1 <= Session.pendingCalculate a)%nat ->
  200 <= st <= 299 ->
  let a' :=
    Session.run a
      [Session.ClearFormClicked;
       Session.CalculateSettled
         (Fulfilled {| status := st; json := inr (JResult r) |})] in
  result (Session.state a') = Some (JResult r) /\
  amount (Session.state a') = "" /\
  selectedDenominations (Session.state a') = [] /\
  error (Session.state a') = "" /\
  loading (Session.state a') = false /\
  Session.pendingCalculate a' = pred (Session.pendingCalculate a).
Proof.
  intros Hpending Hstatus a'. unfold a'. simpl.
  destruct (Session.pendingCalculate a) as [|n]; [lia|]. simpl.
  unfold calculateCoins_settled. rewrite (is_2xx_ok _ _ Hstatus).
  repeat split.
Qed.

Lemma clear_does_not_cancel_witness :
  let a :=
    Session.run (Session.mount None fallbackUrl_localhost)
      [Session.AmountChanged "0.41"; Session.SelectAllClicked;
       Session.CalculateClicked] in
  let r := {| CCResponse.coins := []; CCResponse.totalCoins := of_Z 0 |} in
  result
    (Session.state
       (Session.run a
          [Session.ClearFormClicked;
           Session.CalculateSettled
             (Fulfilled {| status := 200; json := inr (JResult r) |})]))
    = Some (JResult r).
Proof.
  intros a r.
  apply (clear_does_not_cancel a 200 r).
  - vm_compute. lia.
  - lia.
Defined.

(** X10: the Refresh button is never disabled and nothing limits the
    probes in flight: [n] clicks after the mount leave [n + 1] probes
    pending, all for the same base URL. *)
Theorem refresh_is_never_gated env fallback (n : nat) :
  let a := Session.run (Session.mount env fallback)
             (repeat Session.RefreshClicked n) in
  Session.pendingHealth a = S n /\
  Session.network a
    = repeat (health_request (or_else env fallback)) (S n) /\
  connectionStatus (Session.state a) = checking.
Proof.
  assert (Hgen : forall a,
            let a' := Session.run a (repeat Session.RefreshClicked n) in
            Session.pendingHealth a' = (n + Session.pendingHealth a)%nat /\
            Session.network a'
              = (Session.network a
                 ++ repeat (health_request (apiUrl (Session.state a))) n)%list /\
            apiUrl (Session.state a') = apiUrl (Session.state a) /\
            (connectionStatus (Session.state a) = checking ->
             connectionStatus (Session.state a') = checking)).
  { induction n as [|n IH]; intros a; simpl.
    - rewrite app_nil_r. repeat split; auto.
    - destruct (IH (Session.run_checkApiHealth a)) as (H1 & H2 & H3 & H4).
      change (Session.pendingHealth (Session.run_checkApiHealth a))
        with (S (Session.pendingHealth a)) in H1.
      change (Session.network (Session.run_checkApiHealth a))
        with (Session.network a
              ++ [health_request (apiUrl (Session.state a))])%list in H2.
      change (apiUrl (Session.state (Session.run_checkApiHealth a)))
        with (apiUrl (Session.state a)) in H2, H3.
      split; [rewrite H1; lia | split; [|split]].
      + rewrite H2, <- app_assoc. reflexivity.
      + exact H3.
      + intros _. apply H4. reflexivity. }
  intros a. destruct (Hgen (Session.mount env fallback)) as (H1 & H2 & _ & H4).
  fold a in H1, H2, H4. repeat split.
  - rewrite H1. simpl. lia.
  - rewrite H2. simpl. reflexivity.
  - apply H4. reflexivity.
Qed.

(** ** The selector, one checkbox at a time *)

Lemma same_eq a b : same a b = true <-> a = b.
Proof.
  split.
  - destruct a as [s|s| |s m e], b as [s'|s'| |s' m' e']; simpl;
      try discriminate; try reflexivity.
    + intros H. apply Bool.eqb_prop in H. now subst.
    + intros H. apply Bool.eqb_prop in H. now subst.
    + intros H. apply andb_true_iff in H as [H He].
      apply andb_true_iff in H as [Hs Hm].
      apply Bool.eqb_prop in Hs. apply Pos.eqb_eq in Hm. apply Z.eqb_eq in He.
      now subst.
  - intros <-. destruct a as [s|s| |s m e]; simpl; auto using Bool.eqb_reflx.
    now rewrite Bool.eqb_reflx, Pos.eqb_refl, Z.eqb_refl.
Qed.

Lemma lt_irrefl a : lt a a = false.
Proof.
  unfold lt, SFltb. destruct a as [s|s| |s m e]; simpl; try reflexivity.
  - destruct s; reflexivity.
  - rewrite Z.compare_refl, Pos.compare_cont_refl. destruct s; reflexivity.
Qed.

Lemma lt_le a b : lt a b = true -> le a b = true.
Proof.
  unfold lt, le, SFltb, SFleb.
  destruct (SFcompare a b) as [[| |]|]; auto.
Qed.

Lemma catalog_strict : Gated.strict_on catalog = true.
Proof. vm_compute. reflexivity. Qed.

Lemma catalog_strictly_ascending : Gated.strictly_ascending catalog.
Proof.
  assert (H : forall l, Gated.strictly_ascendingb l = true ->
                        Gated.strictly_ascending l).
  { induction l as [|x l IH]; simpl; intros H; [constructor|].
    apply andb_true_iff in H as [Hx Hl]. constructor; [now apply IH|].
    apply Forall_forall. intros y Hy.
    rewrite forallb_forall in Hx. now apply Hx. }
  apply H. vm_compute. reflexivity.
Qed.

Section OnCatalog.

Variables x y : number.
Hypothesis Hx : In x catalog.
Hypothesis Hy : In y catalog.

Lemma catalog_pair :
  strict_eq x y = same x y /\
  lt x y = le x y && negb (same x y) /\
  lt (sub x y) Selector.zero = lt x y.
Proof.
  pose proof catalog_strict as H. unfold Gated.strict_on in H.
  rewrite forallb_forall in H. specialize (H x Hx).
  rewrite forallb_forall in H. specialize (H y Hy).
  apply andb_true_iff in H as [H H3]. apply andb_true_iff in H as [H1 H2].
  apply Bool.eqb_prop in H1, H2, H3. auto.
Qed.

Lemma catalog_strict_eq : strict_eq x y = true <-> x = y.
Proof. destruct catalog_pair as (-> & _). apply same_eq. Qed.

Lemma catalog_le_lt : le x y = true -> x <> y -> lt x y = true.
Proof.
  intros Hle Hne. destruct catalog_pair as (_ & -> & _). rewrite Hle.
  destruct (same x y) eqn:E; [|reflexivity].
  apply same_eq in E. contradiction.
Qed.

Lemma catalog_difference : lt (sub x y) (S754_zero false) = lt x y.
Proof. destruct catalog_pair as (_ & _ & H). exact H. Qed.

End OnCatalog.

Lemma strictly_ascending_ascending l :
  Gated.strictly_ascending l -> Selector.ascending l.
Proof.
  induction 1 as [|x l _ IH Hall]; constructor; [exact IH|].
  rewrite Forall_forall in *. intros z Hz. now apply lt_le, Hall.
Qed.

Lemma strictly_ascending_NoDup l : Gated.strictly_ascending l -> NoDup l.
Proof.
  induction 1 as [|x l _ IH Hall]; constructor; [|exact IH].
  intros Hin. rewrite Forall_forall in Hall.
  specialize (Hall x Hin). now rewrite lt_irrefl in Hall.
Qed.

Lemma ascending_NoDup_strictly l :
  Forall (fun x => In x catalog) l ->
  Selector.ascending l -> NoDup l -> Gated.strictly_ascending l.
Proof.
  intros Hin Hasc. induction Hasc as [|x l _ IH Hall]; intros Hnodup.
  - constructor.
  - inversion Hin as [|? ? Hx Hl]; subst.
    inversion Hnodup as [|? ? Hnotin Hnodup']; subst.
    constructor; [now apply IH|].
    rewrite Forall_forall in *. intros z Hz.
    apply catalog_le_lt; auto.
    intros ->. contradiction.
Qed.

(** Inserting after a sorted list whose elements are all [<=] the new
    one appends it. *)
Lemma insert_at_end d l :
  In d catalog -> Forall (fun x => In x catalog) l ->
  Forall (fun x => le x d = true) l ->
  insert sub d l = (l ++ [d])%list.
Proof.
  intros Hd Hin Hle. induction l as [|z l IH]; simpl; [reflexivity|].
  inversion Hin; subst. inversion Hle; subst.
  rewrite catalog_difference by assumption.
  rewrite le_not_lt by assumption.
  now rewrite IH.
Qed.

Lemma ascending_app_inv (l : list number) x :
  Selector.ascending (l ++ [x]) -> Forall (fun z => le z x = true) l.
Proof.
  induction l as [|z l IH]; simpl; intros H; [constructor|].
  inversion H as [|? ? Hsorted Hall]; subst.
  constructor; [|now apply IH].
  rewrite Forall_forall in Hall. apply Hall, in_or_app. right. now left.
Qed.

Lemma ascending_app_l (l l' : list number) :
  Selector.ascending (l ++ l') -> Selector.ascending l.
Proof.
  induction l as [|z l IH]; simpl; intros H; [constructor|].
  inversion H as [|? ? Hsorted Hall]; subst.
  constructor; [now apply IH|].
  rewrite Forall_forall in *. intros w Hw. apply Hall, in_or_app. now left.
Qed.

(** Sorting a list that is already in ascending order changes nothing. *)
Lemma sort_ascending_id l :
  Forall (fun x => In x catalog) l -> Selector.ascending l -> sort sub l = l.
Proof.
  intros Hin Hasc. unfold sort.
  assert (Hgen : forall acc,
            Forall (fun x => In x catalog) acc ->
            Selector.ascending (acc ++ l) ->
            fold_left (fun sorted x => insert sub x sorted) l acc
              = (acc ++ l)%list).
  { clear Hasc. induction Hin as [|x l Hx Hl IH]; intros acc Hacc Hasc; simpl.
    - now rewrite app_nil_r.
    - assert (Hsplit : (acc ++ x :: l = (acc ++ [x]) ++ l)%list)
        by (now rewrite <- app_assoc).
      rewrite Hsplit in Hasc |- *.
      rewrite insert_at_end; auto.
      + apply IH; [|exact Hasc].
        apply Forall_app. split; [exact Hacc | now constructor].
      + apply ascending_app_inv. eapply ascending_app_l, Hasc. }
  apply (Hgen []); [constructor | exact Hasc].
Qed.

Lemma filter_insert (f : number -> bool) comparefn d l :
  f d = false -> filter f (insert comparefn d l) = filter f l.
Proof.
  intros Hd. induction l as [|z l IH]; simpl.
  - now rewrite Hd.
  - destruct (lt (comparefn d z) (S754_zero false)); simpl.
    + now rewrite Hd.
    + now rewrite IH.
Qed.

Lemma filter_keeps_all (f : number -> bool) l :
  (forall x, In x l -> f x = true) -> filter f l = l.
Proof.
  induction l as [|z l IH]; simpl; intros H; [reflexivity|].
  rewrite (H z) by now left. f_equal. apply IH. intros x Hx. apply H. now right.
Qed.

Lemma sort_last comparefn l d :
  sort comparefn (l ++ [d]) = insert comparefn d (sort comparefn l).
Proof. unfold sort. now rewrite fold_left_app. Qed.

Lemma toggle_on_selection d s :
  In d catalog -> Selector.invariant s ->
  selectedDenominations (handleDenominationChange d true s)
    = insert sub d (selectedDenominations s).
Proof.
  intros Hd (_ & Hin & Hasc).
  change (sort sub (selectedDenominations s ++ [d])%list
          = insert sub d (selectedDenominations s)).
  rewrite sort_last, sort_ascending_id; auto.
Qed.

Lemma state_with_same_selection s l :
  l = selectedDenominations s -> setSelectedDenominations (fun _ => l) s = s.
Proof. intros ->. destruct s. reflexivity. Qed.

(** X11: on a selection of catalog values in ascending order, ticking a
    denomination that is not selected and unticking it again gives back the
    state as it was. *)
Theorem toggle_on_then_off d s :
  Selector.invariant s -> In d catalog ->
  ~ In d (selectedDenominations s) ->
  handleDenominationChange d false (handleDenominationChange d true s) = s.
Proof.
  intros Hinv Hd Hfresh.
  pose proof (toggle_on_selection d s Hd Hinv) as Hon.
  destruct Hinv as (_ & Hin & _).
  assert (Hoff : filter (fun x => negb (strict_eq x d))
                   (insert sub d (selectedDenominations s))
                 = selectedDenominations s).
  { rewrite filter_insert.
    - apply filter_keeps_all. intros x Hx.
      rewrite Forall_forall in Hin.
      destruct (strict_eq x d) eqn:E; [|reflexivity].
      apply catalog_strict_eq in E; auto. subst. contradiction.
    - replace (strict_eq d d) with true; [reflexivity|].
      symmetry. now apply catalog_strict_eq. }
  unfold handleDenominationChange at 1.
  unfold setSelectedDenominations at 1. rewrite Hon, Hoff.
  destruct s. reflexivity.
Qed.

Lemma toggle_on_then_off_witness :
  let s := handleDenominationChange (dec 20 (-2)) true
             (initialState None fallbackUrl_localhost) in
  handleDenominationChange (dec 5 (-2)) false
    (handleDenominationChange (dec 5 (-2)) true s) = s.
Proof.
  intros s. apply toggle_on_then_off.
  - apply (selector_invariant_apply _ (Selector.AddOne (dec 20 (-2)))).
    + vm_compute. auto 20 using eq_refl.
    + apply selector_invariant_initial.
  - vm_compute. auto 20 using eq_refl.
  - vm_compute. intros [H|[]]. discriminate H.
Defined.

Lemma insert_into_filtered d l :
  In d catalog -> Forall (fun x => In x catalog) l ->
  Gated.strictly_ascending l -> In d l ->
  insert sub d (filter (fun x => negb (strict_eq x d)) l) = l.
Proof.
  intros Hd Hin Hstrict. induction Hstrict as [|z l Hsorted IH Hall];
    intros Hmem; [contradiction|].
  inversion Hin as [|? ? Hz Hl]; subst.
  rewrite Forall_forall in Hall. cbn [filter].
  destruct (strict_eq z d) eqn:E.
  - apply catalog_strict_eq in E; auto. subst z. cbn [negb].
    rewrite filter_keeps_all.
    + destruct l as [|w l]; [reflexivity|]. cbn [insert].
      inversion Hl; subst.
      rewrite catalog_difference by assumption.
      now rewrite Hall by now left.
    + intros w Hw. destruct (strict_eq w d) eqn:Ew; [|reflexivity].
      rewrite Forall_forall in Hl.
      apply catalog_strict_eq in Ew; auto. subst w.
      specialize (Hall d Hw). now rewrite lt_irrefl in Hall.
  - cbn [negb insert]. destruct Hmem as [->|Hmem].
    + replace (strict_eq d d) with true in E; [discriminate|].
      symmetry. now apply catalog_strict_eq.
    + rewrite catalog_difference by assumption.
      rewrite le_not_lt by (apply lt_le, Hall, Hmem).
      now rewrite IH.
Qed.

(** X12: on a selection of distinct catalog values in ascending order,
    unticking a selected denomination and ticking it again gives back the
    state as it was: the denomination returns to its place. *)
Theorem toggle_off_then_on d s :
  Selector.invariant s ->
  Gated.strictly_ascending (selectedDenominations s) ->
  In d (selectedDenominations s) ->
  handleDenominationChange d true (handleDenominationChange d false s) = s.
Proof.
  intros (Hvalid & Hin & Hasc) Hstrict Hmem.
  assert (Hd : In d catalog) by (rewrite Forall_forall in Hin; auto).
  set (off := handleDenominationChange d false s).
  assert (Hoff : Selector.invariant off).
  { apply (selector_invariant_apply s (Selector.RemoveOne d)); [exact Hd|].
    repeat split; assumption. }
  pose proof (toggle_on_selection d off Hd Hoff) as Hon.
  change (selectedDenominations off)
    with (filter (fun x => negb (strict_eq x d)) (selectedDenominations s))
    in Hon.
  rewrite insert_into_filtered in Hon by assumption.
  unfold handleDenominationChange at 1, setSelectedDenominations at 1.
  change (sort (fun a b => sub a b) (selectedDenominations off ++ [d]))
    with (selectedDenominations (handleDenominationChange d true off)).
  rewrite Hon. destruct s. reflexivity.
Qed.

Lemma toggle_off_then_on_witness :
  let s := selectAllDenominations (initialState None fallbackUrl_localhost) in
  handleDenominationChange (dec 50 (-2)) true
    (handleDenominationChange (dec 50 (-2)) false s) = s.
Proof.
  intros s. apply toggle_off_then_on.
  - apply (selector_invariant_apply _ Selector.SelectAll); [exact I|].
    apply selector_invariant_initial.
  - apply catalog_strictly_ascending.
  - vm_compute. auto 20 using eq_refl.
Defined.

Lemma gated_step s op :
  Gated.allowed s op ->
  Selector.invariant s -> NoDup (selectedDenominations s) ->
  Selector.invariant (Selector.apply s op) /\
  NoDup (selectedDenominations (Selector.apply s op)).
Proof.
  intros Hop Hinv Hnodup. split.
  - apply selector_invariant_apply; [|exact Hinv].
    destruct op; cbn [Gated.allowed Selector.offered] in *; tauto.
  - destruct op as [d|d| |]; cbn [Selector.apply].
    + destruct Hop as [_ Hfresh].
      eapply Permutation_NoDup;
        [apply Permutation_sym, toggle_on_Permutation|].
      now constructor.
    + simpl. now apply NoDup_filter.
    + destruct Hinv as (Hvalid & _). simpl. rewrite Hvalid.
      apply strictly_ascending_NoDup, catalog_strictly_ascending.
    + simpl. constructor.
Qed.

(** X13: when every add-one is for a catalog denomination that is not
    selected at that moment (what a checkbox bound to the selection
    reports), the selection holds no denomination twice and is in strictly
    ascending order after every sequence of selector operations from the
    initial state. *)
Theorem gated_selection_has_no_duplicates env fallback ops :
  Gated.feasible (initialState env fallback) ops ->
  let s := fold_left Selector.apply ops (initialState env fallback) in
  NoDup (selectedDenominations s) /\
  Gated.strictly_ascending (selectedDenominations s) /\
  incl (selectedDenominations s) catalog.
Proof.
  intros Hfeasible s.
  assert (Hgen : forall s0,
            Gated.feasible s0 ops ->
            Selector.invariant s0 -> NoDup (selectedDenominations s0) ->
            Selector.invariant (fold_left Selector.apply ops s0) /\
            NoDup (selectedDenominations (fold_left Selector.apply ops s0))).
  { clear. induction ops as [|op ops IH]; intros s0 Hf Hinv Hnodup; simpl.
    - now split.
    - destruct Hf as [Hop Hf].
      destruct (gated_step s0 op Hop Hinv Hnodup) as [Hinv' Hnodup'].
      now apply IH. }
  destruct (Hgen _ Hfeasible (selector_invariant_initial env fallback))
    as [(Hvalid & Hin & Hasc) Hnodup]; [constructor|].
  fold s in Hin, Hasc, Hnodup. split; [exact Hnodup | split].
  - now apply ascending_NoDup_strictly.
  - intros x Hx. rewrite Forall_forall in Hin. now apply Hin.
Qed.

Lemma gated_selection_has_no_duplicates_witness :
  NoDup
    (selectedDenominations
       (fold_left Selector.apply
          [Selector.AddOne (dec 100 (-2)); Selector.AddOne (dec 5 (-2));
           Selector.RemoveOne (dec 100 (-2)); Selector.AddOne (dec 100 (-2))]
          (initialState None fallbackUrl_localhost))).
Proof.
  apply gated_selection_has_no_duplicates.
  vm_compute. repeat split; auto 20 using eq_refl;
    intuition discriminate.
Defined.

(** X14: on a selection of catalog values, unticking a catalog
    denomination removes every copy of it, copies left by repeated add-ones
    included, and nothing else; the other denominations keep their order,
    and unticking again changes nothing. *)
Theorem toggle_off_removes_every_copy d s :
  In d catalog ->
  Forall (fun x => In x catalog) (selectedDenominations s) ->
  let s' := handleDenominationChange d false s in
  ~ In d (selectedDenominations s') /\
  (forall x, In x (selectedDenominations s') <->
             In x (selectedDenominations s) /\ x <> d) /\
  (exists keep, selectedDenominations s'
                  = filter keep (selectedDenominations s)) /\
  handleDenominationChange d false s' = s' /\
  (~ In d (selectedDenominations s) -> s' = s).
Proof.
  intros Hd Hin s'. rewrite Forall_forall in Hin.
  assert (Hmem : forall x, In x (selectedDenominations s') <->
                           In x (selectedDenominations s) /\ x <> d).
  { intros x. unfold s'. simpl. rewrite filter_In. split.
    - intros [Hx Hne]. split; [exact Hx|]. intros ->.
      assert (Hdd : strict_eq d d = true) by (now apply catalog_strict_eq).
      rewrite Hdd in Hne. discriminate Hne.
    - intros [Hx Hne]. split; [exact Hx|].
      destruct (strict_eq x d) eqn:E; [|reflexivity].
      apply catalog_strict_eq in E; auto; contradiction. }
  assert (Hkeep : forall l,
            (forall x, In x l -> x <> d /\ In x catalog) ->
            filter (fun x => negb (strict_eq x d)) l = l).
  { intros l Hl. apply filter_keeps_all. intros x Hx.
    destruct (Hl x Hx) as [Hne Hcat].
    destruct (strict_eq x d) eqn:E; [|reflexivity].
    apply catalog_strict_eq in E; auto; contradiction. }
  split; [|split; [exact Hmem | split; [|split]]].
  - intros H. apply Hmem in H. now destruct H.
  - eexists. reflexivity.
  - unfold handleDenominationChange at 1, setSelectedDenominations at 1.
    rewrite Hkeep.
    + destruct s'. reflexivity.
    + intros x Hx. apply Hmem in Hx as [Hx Hne]. auto.
  - intros Hfresh. unfold s', handleDenominationChange,
      setSelectedDenominations.
    rewrite Hkeep.
    + destruct s. reflexivity.
    + intros x Hx. split; [|now apply Hin]. intros ->. contradiction.
Qed.

Lemma toggle_off_removes_every_copy_witness :
  let d := dec 5 (-2) in
  let s := handleDenominationChange d true
             (handleDenominationChange d true
                (handleDenominationChange (dec 1 (-2)) true
                   (initialState None fallbackUrl_localhost))) in
  selectedDenominations s = [dec 1 (-2); d; d] /\
  ~ In d (selectedDenominations (handleDenominationChange d false s)).
Proof.
  intros d s. split; [reflexivity|].
  assert (Hd : In d catalog) by (vm_compute; auto 20 using eq_refl).
  assert (Hs : Forall (fun x => In x catalog) (selectedDenominations s))
    by (vm_compute; repeat constructor; auto 20 using eq_refl).
  exact (proj1 (toggle_off_removes_every_copy d s Hd Hs)).
Defined.

(** ** The coin icons *)

Lemma all_from_spec (f : Z -> bool) len :
  forall start,
    Range.all_from f start len = true ->
    forall z, start <= z < start + Z.of_nat len -> f z = true.
Proof.
  induction len as [|len IH]; intros start H z Hz.
  - simpl in Hz. lia.
  - cbn [Range.all_from] in H. apply andb_true_iff in H as [Hstart Hrest].
    destruct (Z.eq_dec z start) as [->|Hne]; [exact Hstart|].
    apply (IH (start + 1) Hrest). lia.
Qed.

Lemma cents_exact_below_a_dollar :
  Range.all_from Range.cents_exact 0 100 = true.
Proof. vm_compute. reflexivity. Qed.

(** X15: for every whole number of cents [c] from 0 to 99, the text on the
    coin whose value is the binary64 nearest to [c / 100] is the text of the
    number [c] followed by the cent sign, in the result view and in the
    selector alike: [Math.round] undoes the binary error of [value * 100]
    (0.07 * 100 is 7.000000000000001). *)
Theorem cents_text_is_exact (toString : number -> string) (c : Z) :
  0 <= c <= 99 ->
  ResultIcons.getCoinText toString (of_decimal false c (-2))
    = toString (of_Z c) ++ cent_sign /\
  CoinDisplay.getCoinText toString (of_decimal false c (-2))
    = toString (of_Z c) ++ cent_sign.
Proof.
  intros Hc.
  pose proof (all_from_spec _ _ _ cents_exact_below_a_dollar c) as H.
  specialize (H ltac:(simpl; lia)). unfold Range.cents_exact in H.
  apply andb_true_iff in H as [H Hround].
  apply andb_true_iff in H as [Hhundred Hone].
  apply negb_true_iff in Hhundred, Hone. apply same_eq in Hround.
  unfold ResultIcons.getCoinText, CoinDisplay.getCoinText.
  rewrite Hhundred, Hone, Hround. split; reflexivity.
Qed.

Lemma cents_text_is_exact_witness :
  mul (of_decimal false 7 (-2)) (of_Z 100) <> of_Z 7 /\
  ResultIcons.getCoinText (fun n => if same n (of_Z 7) then "7" else "?")
    (of_decimal false 7 (-2)) = "7" ++ cent_sign.
Proof.
  split; [vm_compute; discriminate|].
  apply (cents_text_is_exact (fun n => if same n (of_Z 7) then "7" else "?") 7).
  lia.
Defined.

(** X16: in both components a value is drawn as a bill (square corners,
    the bill size, the green gradient, no coin ring) exactly when it is
    [>= 100], [NaN] counting as a coin; and both give every value the same
    colour and the same text. *)
Theorem bills_and_coins_are_told_apart
    (toString formatCurrency : number -> string) (value : number) :
  let coin := {| CoinInfo.denomination := value; CoinInfo.count := of_Z 1 |} in
  let icon := ResultIcons.coin_icon toString coin in
  let card selected :=
    CoinDisplay.CoinDisplay toString formatCurrency
      {| CoinDisplay.denomination := value;
         CoinDisplay.isSelected := selected |} in
  let bill := ge value (of_Z 100) = true in
  (bill <-> ResultIcons.icon_shape icon = "rounded-md") /\
  (bill <-> ResultIcons.icon_size icon = "w-12 h-8") /\
  (bill <-> ResultIcons.icon_colour icon = "from-green-400 to-green-600") /\
  (bill <-> ResultIcons.icon_ring icon = false) /\
  (forall selected,
     (bill <-> CoinDisplay.coin_shape (card selected) = "rounded-lg") /\
     (bill <-> CoinDisplay.coin_size (card selected) = "w-16 h-10") /\
     (bill <-> CoinDisplay.bill_pattern (card selected) = true) /\
     (bill <-> CoinDisplay.coin_ridges (card selected) = false) /\
     CoinDisplay.coin_colour (card selected) = ResultIcons.icon_colour icon /\
     CoinDisplay.coin_text (card selected) = ResultIcons.icon_text icon) /\
  (isNaN value = true -> ~ bill).
Proof.
  intros coin icon card bill. unfold bill.
  unfold icon, card, ResultIcons.coin_icon, CoinDisplay.CoinDisplay,
    ResultIcons.isLargeDenomination, CoinDisplay.isLargeDenomination,
    ResultIcons.getCoinSize, ResultIcons.getCoinColor,
    CoinDisplay.getCoinSize, CoinDisplay.getCoinColor.
  cbn [CoinInfo.denomination CoinDisplay.denomination coin
       ResultIcons.icon_shape ResultIcons.icon_size ResultIcons.icon_colour
       ResultIcons.icon_ring ResultIcons.icon_text
       CoinDisplay.coin_shape CoinDisplay.coin_size CoinDisplay.bill_pattern
       CoinDisplay.coin_ridges CoinDisplay.coin_colour CoinDisplay.coin_text].
  assert (Hnan : isNaN value = true -> ge value (of_Z 100) <> true).
  { intros Hn. destruct value; try discriminate Hn. vm_compute. discriminate. }
  destruct (ge value (of_Z 100)) eqn:Hbill.
  - repeat split; auto; try (intros; reflexivity).
  - destruct (ge value (of_Z 50)), (ge value (of_Z 10)), (ge value (of_Z 5)),
      (ge value (of_Z 1)), (ge value (of_decimal false 50 (-2))),
      (ge value (of_decimal false 25 (-2))),
      (ge value (of_decimal false 10 (-2)));
      repeat split; auto; try discriminate; try (intros; reflexivity).
Qed.

(** ** The stack of coins and the badge of a breakdown row *)

Lemma rows_account_up_to_100000 :
  Range.all_from Range.row_accounts 0 (Z.to_nat 100001) = true.
Proof. vm_cast_no_check (eq_refl true). Qed.

(** X17: for every whole count [n] from 0 to 100000, a breakdown row draws
    [min n 5] coins in its stack and shows the badge [+(n - 5)] exactly when
    [n > 5], so stack and badge together account for the [n] coins; the
    word after the count is "coin" exactly for [n = 1]. *)
Theorem row_accounts_for_every_coin
    (formatCurrency : number -> string) (denomination : number) (n : Z) :
  0 <= n <= 100000 ->
  let coin := {| CoinInfo.denomination := denomination;
                 CoinInfo.count := of_Z n |} in
  let row := ResultDisplay.render_row formatCurrency coin in
  Z.of_nat (List.length (ResultIcons.stack coin)) = Z.min n 5 /\
  (n <= 5 -> ResultDisplay.row_badge row = None) /\
  (5 < n -> ResultDisplay.row_badge row = Some (of_Z (n - 5))) /\
  (ResultDisplay.row_unit row = "coin" <-> n = 1) /\
  (ResultDisplay.row_unit row = "coin" \/ ResultDisplay.row_unit row = "coins").
Proof.
  intros Hn coin row.
  pose proof (all_from_spec _ _ _ rows_account_up_to_100000 n) as H.
  rewrite Z2Nat.id in H by lia.
  specialize (H ltac:(lia)). unfold Range.row_accounts in H.
  apply andb_true_iff in H as [H Hunit].
  apply andb_true_iff in H as [Hstack Hbadge].
  apply Z.eqb_eq in Hstack. apply Bool.eqb_prop in Hunit.
  change (ResultIcons.stack
            {| CoinInfo.denomination := of_Z 1; CoinInfo.count := of_Z n |})
    with (ResultIcons.stack coin) in Hstack.
  change (ResultDisplay.row_badge
            (ResultDisplay.render_row (fun _ => "")
               {| CoinInfo.denomination := of_Z 1; CoinInfo.count := of_Z n |}))
    with (ResultDisplay.row_badge row) in Hbadge.
  change (ResultDisplay.row_unit
            (ResultDisplay.render_row (fun _ => "")
               {| CoinInfo.denomination := of_Z 1; CoinInfo.count := of_Z n |}))
    with (ResultDisplay.row_unit row) in Hunit.
  split; [exact Hstack | split; [|split; [|split]]].
  - intros Hle. destruct (ResultDisplay.row_badge row); [|reflexivity].
    apply andb_true_iff in Hbadge as [Hlt _]. apply Z.ltb_lt in Hlt. lia.
  - intros Hlt. destruct (ResultDisplay.row_badge row).
    + apply andb_true_iff in Hbadge as [_ Hsame].
      apply same_eq in Hsame. now subst.
    + apply Z.leb_le in Hbadge. lia.
  - rewrite <- String.eqb_eq, <- Z.eqb_eq. now rewrite Hunit.
  - unfold row, ResultDisplay.render_row. simpl.
    destruct (strict_eq (of_Z n) ResultDisplay.one); auto.
Qed.

Lemma row_accounts_for_every_coin_witness :
  let coin := {| CoinInfo.denomination := dec 1 (-2);
                 CoinInfo.count := of_Z 41 |} in
  List.length (ResultIcons.stack coin) = 5%nat /\
  ResultDisplay.row_badge (ResultDisplay.render_row (fun _ => "") coin)
    = Some (of_Z 36).
Proof.
  intros coin.
  destruct (row_accounts_for_every_coin (fun _ => "") (dec 1 (-2)) 41)
    as (Hstack & _ & Hbadge & _); [lia|].
  split; [|apply Hbadge; lia].
  apply Nat2Z.inj. exact Hstack.
Defined.

Lemma digits2_pos_bound (m : positive) :
  Zpos m < 2 ^ Zpos (digits2_pos m).
Proof.
  induction m as [m IH|m IH|]; cbn [digits2_pos].
  - rewrite Pos2Z.inj_succ, Z.pow_succ_r by lia. lia.
  - rewrite Pos2Z.inj_succ, Z.pow_succ_r by lia. lia.
  - reflexivity.
Qed.

Lemma binary64_mantissa s m e :
  is_binary64 (S754_finite s m e) -> Zpos m < 2 ^ 53.
Proof.
  unfold is_binary64, valid_binary, bounded, canonical_mantissa, fexp,
    SpecFloat.emin, prec, emax.
  intros H. apply andb_true_iff in H as [H _]. apply Z.eqb_eq in H.
  pose proof (digits2_pos_bound m) as Hm.
  assert (Hd : Zpos (digits2_pos m) <= 53) by lia.
  eapply Z.lt_le_trans; [exact Hm|].
  apply Z.pow_le_mono_r; lia.
Qed.

(** X18: whatever count the server sends, be it huge, fractional,
    negative, infinite or [NaN], a breakdown row never draws more than five
    coins in its stack, and draws none for a count below 1. *)
Theorem stack_never_exceeds_five (coin : CoinInfo.t) :
  is_binary64 (CoinInfo.count coin) ->
  (List.length (ResultIcons.stack coin) <= 5)%nat /\
  (lt (CoinInfo.count coin) (of_Z 1) = true \/
   isNaN (CoinInfo.count coin) = true ->
   ResultIcons.stack coin = []).
Proof.
  intros Hvalid. unfold ResultIcons.stack.
  rewrite length_map, length_seq.
  set (c := CoinInfo.count coin) in *.
  assert (Hlen : ToLength (Math_min c (of_Z 5)) <= 5 /\
                 (lt c (of_Z 1) = true \/ isNaN c = true ->
                  ToLength (Math_min c (of_Z 5)) <= 0)).
  { destruct c as [s|s| |s m e].
    - split; [|intros _]; destruct s; vm_compute; discriminate.
    - split; [destruct s; vm_compute; discriminate|].
      intros [H|H]; [|discriminate H].
      destruct s; [vm_compute; discriminate | discriminate H].
    - split; [|intros _]; vm_compute; discriminate.
    - pose proof (binary64_mantissa _ _ _ Hvalid) as Hm.
      destruct s.
      + split; [|intros _]; vm_compute; discriminate.
      + unfold Math_min, lt, SFltb. cbn [isNaN orb].
        change (of_Z 5) with (S754_finite false 5629499534213120 (-50)).
        change (of_Z 1) with (S754_finite false 4503599627370496 (-52)).
        cbn [SFcompare].
        assert (Hshift : forall k, 51 <= Zpos k ->
                  Z.shiftr (Zpos m) (Zpos k) <= 3).
        { intros k Hk. rewrite Z.shiftr_div_pow2 by lia.
          apply Z.lt_succ_r. apply Z.div_lt_upper_bound; [lia|].
          eapply Z.lt_le_trans; [exact Hm|].
          change (2 ^ 53) with (2 ^ 51 * 4).
          apply Z.mul_le_mono_nonneg_r; [lia|].
          apply Z.pow_le_mono_r; lia. }
        assert (Hshift0 : forall k, 53 <= Zpos k ->
                  Z.shiftr (Zpos m) (Zpos k) <= 0).
        { intros k Hk. rewrite Z.shiftr_div_pow2 by lia.
          apply Z.lt_succ_r. apply Z.div_lt_upper_bound; [lia|].
          eapply Z.lt_le_trans; [exact Hm|].
          rewrite Z.mul_1_r. apply Z.pow_le_mono_r; lia. }
        split.
        * destruct (Z.compare_spec e (-50)) as [He|He|He].
          -- subst e.
             destruct (Pos.compare_cont Eq m 5629499534213120) eqn:Hcmp.
             ++ apply Pos.compare_eq in Hcmp. subst m.
                cbn [SFcompare]. vm_compute. discriminate.
             ++ cbn [ToLength]. apply Z.min_le_iff. left.
                assert (Hlt : (m < 5629499534213120)%positive) by exact Hcmp.
                apply Pos2Z.pos_lt_pos in Hlt. clear Hcmp.
                rewrite Z.shiftr_div_pow2 by lia.
                apply Z.lt_succ_r. apply Z.div_lt_upper_bound; [lia|].
                change (2 ^ 50 * Z.succ 5) with 6755399441055744. lia.
             ++ cbn [SFcompare]. rewrite Z.compare_refl.
                pose proof (Pos.compare_cont_antisym m 5629499534213120 Eq)
                  as Hanti.
                rewrite Hcmp in Hanti. cbn [CompOpp] in Hanti.
                rewrite <- Hanti. vm_compute. discriminate.
          -- cbn [ToLength]. apply Z.min_le_iff. left.
             destruct e as [|e|k]; try lia.
             specialize (Hshift k ltac:(lia)). lia.
          -- cbn [SFcompare].
             rewrite (Z.compare_antisym e (-50)).
             apply Z.compare_gt_iff in He. rewrite He. cbn [CompOpp].
             vm_compute. discriminate.
        * intros [H|H]; [|discriminate H].
          destruct (Z.compare_spec e (-52)) as [He|He|He];
            [subst e | | discriminate H].
          -- (* same exponent as 1: a mantissa below that of 1 is not
                canonical *)
             exfalso.
             destruct (Pos.compare_cont Eq m 4503599627370496) eqn:Hcmp;
               try discriminate H.
             assert (Hlt : (m < 4503599627370496)%positive) by exact Hcmp.
             apply Pos2Z.pos_lt_pos in Hlt. clear Hcmp H.
             revert Hvalid. unfold is_binary64, valid_binary, bounded,
               canonical_mantissa, fexp, SpecFloat.emin, prec, emax.
             intros Hv. apply andb_true_iff in Hv as [Hv _].
             apply Z.eqb_eq in Hv.
             assert (Hd : Zpos (digits2_pos m) = 53) by lia.
             assert (Hlow : 2 ^ 52 <= Zpos m).
             { clear -Hd. revert Hd.
               assert (Hgen : forall p, 2 ^ (Zpos (digits2_pos p) - 1) <= Zpos p).
               { induction p as [p IH|p IH|]; cbn [digits2_pos].
                 - rewrite Pos2Z.inj_succ.
                   replace (Z.succ (Zpos (digits2_pos p)) - 1)
                     with (Z.succ (Zpos (digits2_pos p) - 1)) by lia.
                   rewrite Z.pow_succ_r by lia. lia.
                 - rewrite Pos2Z.inj_succ.
                   replace (Z.succ (Zpos (digits2_pos p)) - 1)
                     with (Z.succ (Zpos (digits2_pos p) - 1)) by lia.
                   rewrite Z.pow_succ_r by lia. lia.
                 - simpl. lia. }
               intros Hd. specialize (Hgen m). rewrite Hd in Hgen.
               exact Hgen. }
             change (2 ^ 52) with 4503599627370496 in Hlow. lia.
          -- assert (Hlt5 : (e ?= -50) = Lt) by (apply Z.compare_lt_iff; lia).
             rewrite Hlt5. cbn [ToLength]. apply Z.min_le_iff. left.
             destruct e as [|e|k]; try lia.
             apply Hshift0. lia. }
  destruct Hlen as [H5 H0]. split.
  - lia.
  - intros H. specialize (H0 H).
    replace (Z.to_nat (ToLength (Math_min c (of_Z 5)))) with 0%nat; [reflexivity|].
    lia.
Qed.

Lemma stack_never_exceeds_five_witness :
  let coin := {| CoinInfo.denomination := dec 1 (-2);
                 CoinInfo.count := Infinity |} in
  (List.length (ResultIcons.stack coin) <= 5)%nat.
Proof.
  intros coin. apply (stack_never_exceeds_five coin). reflexivity.
Defined.

(** ** The connection badge and the first render *)

(** X19: the three connection states have three different texts and three
    different icons, so the badge always tells which one holds; the spinner
    is the icon of checking alone and the crossed-out one that of
    disconnected alone. *)
Theorem connection_badge_tells_states_apart (s1 s2 : State) :
  (getConnectionStatusText s1 = getConnectionStatusText s2 <->
   connectionStatus s1 = connectionStatus s2) /\
  (ConnectionBadge.getConnectionIcon s1 = ConnectionBadge.getConnectionIcon s2 <->
   connectionStatus s1 = connectionStatus s2) /\
  (fst (ConnectionBadge.getConnectionIcon s1) = ConnectionBadge.Loader2 <->
   connectionStatus s1 = checking) /\
  (fst (ConnectionBadge.getConnectionIcon s1) = ConnectionBadge.WifiOff <->
   connectionStatus s1 = disconnected).
Proof.
  unfold getConnectionStatusText, ConnectionBadge.getConnectionIcon.
  destruct (connectionStatus s1), (connectionStatus s2);
    simpl; repeat split; intros; try discriminate; reflexivity.
Qed.

(** X20: the first render makes exactly one call, the health probe of the
    configured base URL, which is [VITE_API_URL] unless that is unset or
    empty and the fallback then; the form is empty, nothing is shown as
    error or result, the state is checking and the Calculate button is
    enabled. *)
Theorem mount_probes_the_configured_url
    (formatCurrency : number -> string) env fallback :
  let a := Session.mount env fallback in
  let s := Session.state a in
  Session.network a = [health_request (apiUrl s)] /\
  Session.pendingHealth a = 1%nat /\ Session.pendingCalculate a = 0%nat /\
  (forall url, env = Some url -> url <> "" -> apiUrl s = url) /\
  (env = None \/ env = Some "" -> apiUrl s = fallback) /\
  connectionStatus s = checking /\ calculate_disabled s = false /\
  amount s = "" /\ selectedDenominations s = [] /\
  validDenominations s = catalog /\
  exists view,
    render formatCurrency s = Some view /\
    error_box view = None /\ result_box view = None /\
    submit_disabled view = false /\ status_text view = "Checking...".
Proof.
  intros a s.
  split; [reflexivity | split; [reflexivity | split; [reflexivity|]]].
  split; [|split].
  - intros url -> Hne. simpl. destruct url; [contradiction | reflexivity].
  - intros [-> | ->]; reflexivity.
  - split; [reflexivity | split; [reflexivity|]].
    split; [reflexivity | split; [reflexivity | split; [reflexivity|]]].
    eexists. split; [reflexivity|]. repeat split.
Qed.

Lemma mount_probes_the_configured_url_witness :
  Session.network (Session.mount (Some "") fallbackUrl_deployed)
    = [health_request fallbackUrl_deployed].
Proof.
  destruct (mount_probes_the_configured_url (fun _ => "") (Some "")
              fallbackUrl_deployed) as (Hnetwork & _ & _ & _ & Hurl & _).
  rewrite Hnetwork, Hurl; [reflexivity | now right].
Defined.

(** ** What the disconnected guard does not prevent *)

(** X21: the disconnected state disables Calculate only until the next
    probe starts: with no request pending, a click on Refresh puts the state
    back to checking, and a click on Calculate right after it, before any
    probe has answered, sends the request of a valid form even from a state
    that was disconnected. *)
Theorem refresh_lifts_the_guard (a : Session.t) :
  loading (Session.state a) = false ->
  ~ Validation.rejected (Session.state a) ->
  let a1 := Session.step a Session.RefreshClicked in
  let a2 := Session.step a1 Session.CalculateClicked in
  calculate_disabled (Session.state a1) = false /\
  Session.pendingCalculate a2 = S (Session.pendingCalculate a) /\
  loading (Session.state a2) = true /\
  Session.network a2
    = (Session.network a
       ++ [health_request (apiUrl (Session.state a));
           calculate_request (apiUrl (Session.state a))
             {| CCRequest.amount := parseFloat (amount (Session.state a));
                CCRequest.denominations :=
                  selectedDenominations (Session.state a) |}])%list.
Proof.
  intros Hloading Hvalid a1 a2.
  assert (Hdisabled : calculate_disabled (Session.state a1) = false).
  { unfold calculate_disabled. simpl. now rewrite Hloading. }
  assert (Hvalid1 : ~ Validation.rejected (Session.state a1)) by exact Hvalid.
  split; [exact Hdisabled|].
  unfold a2. cbn [Session.step]. rewrite Hdisabled.
  unfold Session.run_calculateCoins.
  rewrite (not_rejected_calculateCoins _ Hvalid1).
  cbn [Session.pendingCalculate Session.state Session.network].
  split; [reflexivity | split; [reflexivity|]].
  unfold a1. simpl. now rewrite <- app_assoc.
Qed.

Lemma refresh_lifts_the_guard_witness :
  let a :=
    Session.run (Session.mount None fallbackUrl_localhost)
      [Session.HealthSettled
         (Rejected {| Error.name := "TypeError";
                      Error.message := "Failed to fetch" |});
       Session.AmountChanged "0.41"; Session.SelectAllClicked] in
  connectionStatus (Session.state a) = disconnected /\
  Session.step a Session.CalculateClicked = a /\
  Session.pendingCalculate
    (Session.step (Session.step a Session.RefreshClicked)
       Session.CalculateClicked) = 1%nat.
Proof.
  intros a. split; [reflexivity | split; [reflexivity|]].
  assert (Hloading : loading (Session.state a) = false) by reflexivity.
  assert (Hvalid : ~ Validation.rejected (Session.state a)).
  { intros [H | [H | [H | [H | H]]]]; vm_compute in H; discriminate H. }
  exact (proj1 (proj2 (refresh_lifts_the_guard a Hloading Hvalid))).
Defined.
